(** * The research API server: sessions, live channel and request boundary

    A shallow embedding of [src/api/server.ts], [src/output-manager.ts] and
    [src/types/api.ts].  The server is an event-driven program: every
    callback of the source (route handler, socket listener, progress and
    output callback, promise continuation) is a function on [ServerState],
    and everything the server does to the outside world is appended to an
    effect log. *)

From Stdlib Require Import QArith Ascii String.
From stdpp Require Import base option list strings gmap.

Local Open Scope stdpp_scope.

#[local] Set Warnings "-clear-no-such-hyp".


(** ** Numbers

    A JavaScript number that came out of [JSON.parse]: a finite double
    (compared here as the rational it denotes) or an infinity
    ([JSON.parse("1e999")]).  [NaN] has no JSON spelling. *)

Inductive number :=
| Finite (q : Q)
| PosInfinity
| NegInfinity.

(** [a <= b] on numbers. *)
Definition num_le (a b : number) : bool :=
  match a, b with
  | NegInfinity, _ => true
  | _, PosInfinity => true
  | Finite x, Finite y => Qle_bool x y
  | _, _ => false
  end.

Definition num_of_Z (z : Z) : number := Finite (inject_Z z).

(** ** [types/api.ts] *)

(** [ResearchProgress], imported from the research engine: the snapshot
    the engine hands to [onProgress]. *)
Record ResearchProgress := {
  currentDepth : number;
  totalDepth : number;
  currentBreadth : number;
  totalBreadth : number;
  currentQuery : option string;
  totalQueries : number;
  completedQueries : number;
}.

Record ModelConfig := {
  name : option string;
  endpoint : option string;
  contextSize : option number;
}.

Inductive Status := pending | in_progress | completed | error_status.

(** [ResearchSession['results']] when it is not [null]. *)
Record Results := {
  learnings : list string;
  visitedUrls : list string;
  report : option string;
}.

Record ResearchSession := {
  id : string;
  status : Status;
  query : string;
  breadth : number;
  depth : number;
  additionalNotes : option string;
  mainPromptNotes : option string;
  progress : option ResearchProgress;
  results : option Results;
  error : option string;
  createdAt : Z;
  updatedAt : Z;
}.

(** [ProgressUpdate] as it goes on the wire.  The TypeScript type gives the
    ['progress'] variant a [ResearchProgress]; what [JSON.stringify] sees
    is the run-time value, which is [null] when a [!] assertion let a
    [null] through, hence the [option]. *)
Inductive ProgressUpdate :=
| progress_update (data : option ResearchProgress)
| completed_update (data : Results)
| error_update (message : string).

(** ** The request body

    What [express.json()] leaves in [req.body], seen through the keys the
    schema reads.  [None] is an absent key ([undefined]). *)

Inductive json :=
| JNull
| JBool (b : bool)
| JNumber (n : number)
| JString (s : string)
| JCompound.   (* an array or an object where a scalar is expected *)

(** [z.string().url()] accepts a string when [new URL(s)] does not throw.
    The URL parser is outside this development; the request carries its
    verdict with the string. *)
Inductive endpoint_value :=
| EndpointString (s : string) (url_parses : bool)
| EndpointOther (j : json).

Record ModelBody := {
  mb_name : option json;
  mb_endpoint : option endpoint_value;
  mb_contextSize : option json;
}.

Inductive model_value :=
| ModelObject (m : ModelBody)
| ModelOther (j : json).

Record RequestBody := {
  rb_query : option json;
  rb_breadth : option json;
  rb_depth : option json;
  rb_additionalNotes : option json;
  rb_mainPromptNotes : option json;
  rb_model : option model_value;
  rb_concurrency : option json;
  rb_followUpQuestions : option json;
}.

(** The output of [startResearchSchema.parse]. *)
Record StartResearchRequest := {
  sr_query : string;
  sr_breadth : option number;
  sr_depth : option number;
  sr_additionalNotes : option string;
  sr_mainPromptNotes : option string;
  sr_model : option ModelConfig;
  sr_concurrency : option number;
  sr_followUpQuestions : option number;
}.

(** ** [startResearchSchema]

    Each checker returns [None] when zod raises an issue for the key and
    [Some v] with the parsed value otherwise; [parse] fails as soon as one
    key fails (zod collects the issues and throws once; only the throw is
    observable here). *)

(** [z.number().min(lo).max(hi)] *)
Definition z_number (lo hi : Z) (j : json) : option number :=
  match j with
  | JNumber n =>
      if num_le (num_of_Z lo) n && num_le n (num_of_Z hi) then Some n else None
  | _ => None
  end.

(** [z.string()] *)
Definition z_string (j : json) : option string :=
  match j with
  | JString s => Some s
  | _ => None
  end.

(** [z.string().min(1, 'Query is required')] *)
Definition z_string_min1 (j : json) : option string :=
  match j with
  | JString s => if (1 <=? String.length s)%nat then Some s else None
  | _ => None
  end.

(** [z.string().url()] *)
Definition z_url (e : endpoint_value) : option string :=
  match e with
  | EndpointString s true => Some s
  | _ => None
  end.

(** [schema.optional()]: an absent key passes as [undefined]. *)
Definition z_optional {A B} (schema : A → option B) (field : option A)
  : option (option B) :=
  match field with
  | None => Some None
  | Some j => Some <$> schema j
  end.

(** [schema] without [.optional()]: an absent key is an issue. *)
Definition z_required {A B} (schema : A → option B) (field : option A)
  : option B :=
  field ≫= schema.

Definition z_model (m : model_value) : option ModelConfig :=
  match m with
  | ModelObject mb =>
      n ← z_optional z_string (mb_name mb);
      e ← z_optional z_url (mb_endpoint mb);
      c ← z_optional (z_number 1000 1000000) (mb_contextSize mb);
      Some {| name := n; endpoint := e; contextSize := c |}
  | ModelOther _ => None
  end.

Definition startResearchSchema_parse (body : RequestBody)
  : option StartResearchRequest :=
  q ← z_required z_string_min1 (rb_query body);
  b ← z_optional (z_number 1 10) (rb_breadth body);
  d ← z_optional (z_number 1 5) (rb_depth body);
  an ← z_optional z_string (rb_additionalNotes body);
  mn ← z_optional z_string (rb_mainPromptNotes body);
  m ← z_optional z_model (rb_model body);
  c ← z_optional (z_number 1 10) (rb_concurrency body);
  f ← z_optional (z_number 1 10) (rb_followUpQuestions body);
  Some {| sr_query := q; sr_breadth := b; sr_depth := d;
          sr_additionalNotes := an; sr_mainPromptNotes := mn;
          sr_model := m; sr_concurrency := c; sr_followUpQuestions := f |}.

(** ** Server state *)

(** What [deepResearch] resolves with. *)
Record ResearchOutput := {
  out_learnings : list string;
  out_visitedUrls : list string;
}.

(** Where the chain [deepResearch(..).then(..).catch(..)] of one request
    stands.  A promise settles once, so each continuation runs at most
    once: [.then] starts when the research resolves and waits for
    [writeFinalReport]; [.catch] runs when either of the two rejects. *)
Inductive Phase :=
| researching
| reporting (out : ResearchOutput)
| settled.

(** One activation of the [POST /api/research] handler: the variables its
    callbacks close over.  [session] is the object itself; the registry
    and the callbacks share it by reference, which is why the registry
    below stores an index into [tasks] and not a copy. *)
Record Task := {
  session : ResearchSession;
  sessionId : string;
  enhancedQuery : string;
  model : option ModelConfig;
  phase : Phase;
}.

(** The argument of [deepResearch]. [onProgress] is always
    [progress => output.updateProgress(progress)] of the task and is left
    out. *)
Record DeepResearchParams := {
  dr_query : string;
  dr_breadth : number;
  dr_depth : number;
  dr_model : option ModelConfig;
  dr_concurrency : option number;
  dr_followUpQuestions : option number;
}.

(** The argument of [writeFinalReport]. *)
Record ReportParams := {
  rp_prompt : string;
  rp_learnings : list string;
  rp_visitedUrls : list string;
  rp_model : option ModelConfig;
}.

Inductive response_body :=
| error_body (error : string)
    (* { error } *)
| internal_error_body (with_message : bool)
    (* { error: 'Internal server error', message }, message only in development *)
| started_body (sessionId : string) (status : Status)
| status_body (sessionId : string) (status : Status)
    (progress : option ResearchProgress) (results : option Results)
    (error : option string)
| no_route_body
    (* the page Express answers with when no route matches *).

(** Everything the server does to the outside world, in program order.
    [ws_send ws update] is the call [ws.send(JSON.stringify(update))]; it
    is taken to return normally, whatever the state of the socket. *)
Inductive effect :=
| ws_send (ws : nat) (update : ProgressUpdate)
| ws_close (ws : nat) (code : nat) (reason : string)
| http_respond (code : nat) (body : response_body)
| call_deepResearch (task : nat) (params : DeepResearchParams)
| call_writeFinalReport (task : nat) (params : ReportParams)
| console_error
| terminal_output.

(** [process.env] *)
Record Env := {
  API_KEY : option string;
  NODE_ENV : option string;
}.

(** [sessions] and [progressSubscribers] are the two module-level maps.
    A [Set<WebSocket>] is kept as the list of its members in insertion
    order, which is the order [forEach] visits them in.  A socket is the
    index at which the connection was accepted; [sockets] records, for
    each, the session id its ['close'] listener was registered with.
    [clock] is what [new Date()] reads. *)
Record ServerState := {
  sessions : gmap string nat;
  tasks : list Task;
  progressSubscribers : gmap string (list nat);
  sockets : list (option string);
  clock : Z;
  effects : list effect;
}.

Definition initial_state : ServerState :=
  {| sessions := ∅; tasks := []; progressSubscribers := ∅;
     sockets := []; clock := 0; effects := [] |}.

Definition set_sessions (m : gmap string nat) (st : ServerState) :=
  {| sessions := m; tasks := tasks st;
     progressSubscribers := progressSubscribers st;
     sockets := sockets st; clock := clock st; effects := effects st |}.

Definition set_tasks (l : list Task) (st : ServerState) :=
  {| sessions := sessions st; tasks := l;
     progressSubscribers := progressSubscribers st;
     sockets := sockets st; clock := clock st; effects := effects st |}.

Definition set_progressSubscribers (m : gmap string (list nat))
    (st : ServerState) :=
  {| sessions := sessions st; tasks := tasks st;
     progressSubscribers := m;
     sockets := sockets st; clock := clock st; effects := effects st |}.

Definition set_sockets (l : list (option string)) (st : ServerState) :=
  {| sessions := sessions st; tasks := tasks st;
     progressSubscribers := progressSubscribers st;
     sockets := l; clock := clock st; effects := effects st |}.

Definition set_clock (t : Z) (st : ServerState) :=
  {| sessions := sessions st; tasks := tasks st;
     progressSubscribers := progressSubscribers st;
     sockets := sockets st; clock := t; effects := effects st |}.

Definition emit_all (es : list effect) (st : ServerState) :=
  {| sessions := sessions st; tasks := tasks st;
     progressSubscribers := progressSubscribers st;
     sockets := sockets st; clock := clock st; effects := effects st ++ es |}.

Definition emit (e : effect) : ServerState → ServerState := emit_all [e].

(** In-place updates of a task's session object and of its phase. *)
Definition with_session (f : ResearchSession → ResearchSession) (t : Task) :=
  {| session := f (session t); sessionId := sessionId t;
     enhancedQuery := enhancedQuery t; model := model t; phase := phase t |}.

Definition with_phase (p : Phase) (t : Task) :=
  {| session := session t; sessionId := sessionId t;
     enhancedQuery := enhancedQuery t; model := model t; phase := p |}.

Definition update_task (r : nat) (f : Task → Task) (st : ServerState) :=
  set_tasks (alter f r (tasks st)) st.

(** ** JavaScript odds and ends *)

(** Truthiness of a [string | undefined | null]. *)
Definition truthy (o : option string) : bool :=
  match o with
  | Some s => bool_decide (s ≠ "")
  | None => false
  end.

Definition LF : string := String "010" EmptyString.

(** [Set.prototype.add] and [Set.prototype.delete]. *)
Definition Set_add (x : nat) (s : list nat) : list nat :=
  if decide (x ∈ s) then s else s ++ [x].

Definition Set_delete (x : nat) (s : list nat) : list nat :=
  filter (λ y, y ≠ x) s.

(** ** Authentication *)

(** [authenticateWs] *)
Definition authenticateWs (env : Env) (apiKey : option string) : bool :=
  truthy (API_KEY env) && truthy apiKey && bool_decide (apiKey = API_KEY env).

(** [authenticate], mounted on [/api]: [None] is [next()], otherwise the
    response it ends the request with. *)
Definition authenticate (env : Env) (apiKey : option string)
  : option (list effect) :=
  if negb (truthy (API_KEY env)) then
    Some [console_error;
          http_respond 500 (error_body "Server configuration error")]
  else if negb (truthy apiKey) || bool_decide (apiKey ≠ API_KEY env) then
    Some [http_respond 401 (error_body "Invalid API key")]
  else None.

(** [errorHandler] *)
Definition errorHandler (env : Env) (st : ServerState) : ServerState :=
  emit_all
    [console_error;
     http_respond 500
       (internal_error_body (bool_decide (NODE_ENV env = Some "development")))]
    st.

(** ** Fan-out to the subscribers of a session

    [const subscribers = progressSubscribers.get(sessionId);
     if (subscribers) subscribers.forEach(ws => ws.send(JSON.stringify(update)))] *)
Definition broadcast (sid : string) (update : ProgressUpdate)
    (st : ServerState) : ServerState :=
  match progressSubscribers st !! sid with
  | Some subscribers => emit_all ((λ ws, ws_send ws update) <$> subscribers) st
  | None => st
  end.

(** ** The live channel: [wss.on('connection', ..)] *)

(** The snapshot synthesized for a session that has no stored progress. *)
Definition initial_progress (s : ResearchSession) : ResearchProgress :=
  {| currentDepth := num_of_Z 0; totalDepth := depth s;
     currentBreadth := num_of_Z 0; totalBreadth := breadth s;
     currentQuery := None;
     completedQueries := num_of_Z 0; totalQueries := num_of_Z 0 |}.

(** [initialUpdate] *)
Definition initialUpdate (s : ResearchSession) : ProgressUpdate :=
  match results s with
  | Some r => completed_update r
  | None =>
      match progress s with
      | Some p => progress_update (Some p)
      | None => progress_update (Some (initial_progress s))
      end
  end.

(** [sessions.has(sessionId)] *)
Definition sessions_has (st : ServerState) (sid : string) : bool :=
  bool_decide (is_Some (sessions st !! sid)).

(** [sessions.get(sessionId)]: the session object the registry points to. *)
Definition sessions_get (st : ServerState) (sid : string)
  : option ResearchSession :=
  r ← sessions st !! sid; session <$> tasks st !! r.

(** The connection handler.  The new socket is [length (sockets st)].
    [new URL(..)] is taken to have succeeded, [sessionId] being what
    [url.searchParams.get('sessionId')] returned.  The [catch] block is
    reached when [sessions.get(sessionId)!] is [undefined] and reading
    [session.results] throws; [sessions_get_has] below shows that this
    does not happen after [sessions.has] answered [true]. *)
Definition ws_connection (env : Env) (apiKey sessionId : option string)
    (st : ServerState) : ServerState :=
  let ws := length (sockets st) in
  let st := set_sockets (sockets st ++ [None]) st in
  if negb (authenticateWs env apiKey) then
    emit (ws_close ws 1008 "Invalid API key") st
  else
    match sessionId with
    | Some sid =>
        if negb (truthy sessionId) || negb (sessions_has st sid) then
          emit (ws_close ws 1008 "Invalid session ID") st
        else
          let subscribers := default [] (progressSubscribers st !! sid) in
          let st := set_progressSubscribers
                      (<[sid := Set_add ws subscribers]> (progressSubscribers st))
                      st in
          match sessions_get st sid with
          | Some session =>
              let st := emit (ws_send ws (initialUpdate session)) st in
              set_sockets (<[ws := Some sid]> (sockets st)) st
          | None =>
              emit_all [console_error; ws_close ws 1011 "Internal server error"] st
          end
    | None => emit (ws_close ws 1008 "Invalid session ID") st
    end.

(** The ['close'] listener of a subscribed socket.  It fires once. *)
Definition ws_on_close (ws : nat) (st : ServerState) : ServerState :=
  match sockets st !! ws with
  | Some (Some sid) =>
      let st := set_sockets (<[ws := None]> (sockets st)) st in
      match progressSubscribers st !! sid with
      | Some subs =>
          let subs := Set_delete ws subs in
          set_progressSubscribers
            (if decide (length subs = 0)
             then delete sid (progressSubscribers st)
             else <[sid := subs]> (progressSubscribers st))
            st
      | None => st
      end
  | _ => st
  end.

(** ** [output-manager.ts] *)

(** The class, with its callbacks as state transformers.  Drawing on the
    terminal is recorded as one opaque effect. *)
Record OutputManager := {
  headless : bool;
  onOutput : option (string → ServerState → ServerState);
  onProgress : option (ResearchProgress → ServerState → ServerState);
}.

Definition join (sep : string) (args : list string) : string :=
  String.concat sep args.

(** [log(...args)] *)
Definition log (om : OutputManager) (args : list string)
    (st : ServerState) : ServerState :=
  let message := join " " args in
  let st := match onOutput om with
            | Some f => f message st
            | None => st
            end in
  if headless om then st else emit terminal_output st.

(** [updateProgress(progress)] *)
Definition updateProgress (om : OutputManager) (progress : ResearchProgress)
    (st : ServerState) : ServerState :=
  let st := match onProgress om with
            | Some f => f progress st
            | None => st
            end in
  if headless om then st else emit terminal_output st.

(** ** [POST /api/research] and the callbacks it creates *)

Definition set_progress (p : ResearchProgress) (t : Z) (s : ResearchSession) :=
  {| id := id s; status := in_progress; query := query s;
     breadth := breadth s; depth := depth s;
     additionalNotes := additionalNotes s;
     mainPromptNotes := mainPromptNotes s;
     progress := Some p; results := results s; error := error s;
     createdAt := createdAt s; updatedAt := t |}.

Definition set_completed (r : Results) (t : Z) (s : ResearchSession) :=
  {| id := id s; status := completed; query := query s;
     breadth := breadth s; depth := depth s;
     additionalNotes := additionalNotes s;
     mainPromptNotes := mainPromptNotes s;
     progress := progress s; results := Some r; error := error s;
     createdAt := createdAt s; updatedAt := t |}.

Definition set_error (message : string) (t : Z) (s : ResearchSession) :=
  {| id := id s; status := error_status; query := query s;
     breadth := breadth s; depth := depth s;
     additionalNotes := additionalNotes s;
     mainPromptNotes := mainPromptNotes s;
     progress := progress s; results := results s; error := Some message;
     createdAt := createdAt s; updatedAt := t |}.

(** The [onOutput] callback of task [r]. *)
Definition session_onOutput (r : nat) (message : string)
    (st : ServerState) : ServerState :=
  match tasks st !! r with
  | Some t => broadcast (sessionId t) (progress_update (progress (session t))) st
  | None => st
  end.

(** The [onProgress] callback of task [r]. *)
Definition session_onProgress (r : nat) (p : ResearchProgress)
    (st : ServerState) : ServerState :=
  match tasks st !! r with
  | Some t =>
      let st := update_task r (with_session (set_progress p (clock st))) st in
      broadcast (sessionId t) (progress_update (Some p)) st
  | None => st
  end.

(** [const output = new OutputManager({ headless: true, onOutput, onProgress })] *)
Definition output (r : nat) : OutputManager :=
  {| headless := true;
     onOutput := Some (session_onOutput r);
     onProgress := Some (session_onProgress r) |}.

(** [enhancedQuery] *)
Definition enhance (query : string) (additionalNotes : option string) : string :=
  match additionalNotes with
  | Some notes =>
      if truthy additionalNotes
      then query +:+ LF +:+ LF +:+ "Additional Context:" +:+ LF +:+ notes
      else query
  | None => query
  end.

(** What the call [deepResearch({..})] does before it returns its
    promise.  The engine is not among the sources; it is handed
    [onProgress: (progress) => output.updateProgress(progress)] and may
    call it, with the snapshots [sync], before it first yields.  The call
    is taken to return a promise, as the [.then] that follows expects. *)
Definition deepResearch_sync (r : nat) (sync : list ResearchProgress)
    (st : ServerState) : ServerState :=
  foldl (λ st progress, updateProgress (output r) progress st) st sync.

(** [session.status], read from the session object of task [r].  Where
    it is used the object has just been allocated. *)
Definition live_status (r : nat) (st : ServerState) : Status :=
  match tasks st !! r with
  | Some t => status (session t)
  | None => pending
  end.

(** The route handler, after [authenticate]; [uuid] is what [uuidv4()]
    returned, [sync] what the engine reports while it is being called.
    The session object is allocated at the end of [tasks].  The
    continuations of the promise run in later callbacks; the response
    reads [session.status] after the call. *)
Definition post_research (env : Env) (body : RequestBody) (uuid : string)
    (sync : list ResearchProgress) (st : ServerState) : ServerState :=
  match startResearchSchema_parse body with
  | None => errorHandler env st
  | Some validatedData =>
      let query := sr_query validatedData in
      let breadth := default (num_of_Z 4) (sr_breadth validatedData) in
      let depth := default (num_of_Z 2) (sr_depth validatedData) in
      let additionalNotes := sr_additionalNotes validatedData in
      let mainPromptNotes := sr_mainPromptNotes validatedData in
      let model := sr_model validatedData in
      let sessionId := uuid in
      let session :=
        {| id := sessionId; status := pending; query := query;
           breadth := breadth; depth := depth;
           additionalNotes := additionalNotes;
           mainPromptNotes := mainPromptNotes;
           progress := None; results := None; error := None;
           createdAt := clock st; updatedAt := clock st |} in
      let r := length (tasks st) in
      let enhancedQuery := enhance query additionalNotes in
      let task :=
        {| session := session; sessionId := sessionId;
           enhancedQuery := enhancedQuery; model := model;
           phase := researching |} in
      let st := set_tasks (tasks st ++ [task]) st in
      let st := set_sessions (<[sessionId := r]> (sessions st)) st in
      let st := emit (call_deepResearch r
                        {| dr_query := enhancedQuery; dr_breadth := breadth;
                           dr_depth := depth; dr_model := model;
                           dr_concurrency := sr_concurrency validatedData;
                           dr_followUpQuestions :=
                             sr_followUpQuestions validatedData |}) st in
      let st := deepResearch_sync r sync st in
      emit (http_respond 200 (started_body sessionId (live_status r st))) st
  end.

(** The [.then] continuation up to its [await]: it calls
    [writeFinalReport]. *)
Definition research_resolved (r : nat) (out : ResearchOutput)
    (st : ServerState) : ServerState :=
  match tasks st !! r with
  | Some t =>
      match phase t with
      | researching =>
          let st := update_task r (with_phase (reporting out)) st in
          emit (call_writeFinalReport r
                  {| rp_prompt := enhancedQuery t;
                     rp_learnings := out_learnings out;
                     rp_visitedUrls := out_visitedUrls out;
                     rp_model := model t |}) st
      | _ => st
      end
  | None => st
  end.

(** The rest of the [.then] continuation, once the report is there. *)
Definition report_resolved (r : nat) (report : string)
    (st : ServerState) : ServerState :=
  match tasks st !! r with
  | Some t =>
      match phase t with
      | reporting out =>
          let results := {| learnings := out_learnings out;
                            visitedUrls := out_visitedUrls out;
                            report := Some report |} in
          let st := update_task r
                      (λ t, with_phase settled
                              (with_session (set_completed results (clock st)) t))
                      st in
          broadcast (sessionId t) (completed_update results) st
      | _ => st
      end
  | None => st
  end.

(** The [.catch] continuation; [message] is [error.message] of the
    rejection. *)
Definition research_catch (r : nat) (message : string)
    (st : ServerState) : ServerState :=
  match tasks st !! r with
  | Some t =>
      let st := update_task r
                  (λ t, with_phase settled
                          (with_session (set_error message (clock st)) t))
                  st in
      broadcast (sessionId t) (error_update message) st
  | None => st
  end.

(** ** [GET /api/research/:sessionId]

    The route handler; [sessionId] is [req.params.sessionId]. *)
Definition get_research (sessionId : string) (st : ServerState) : ServerState :=
  if negb (truthy (Some sessionId)) then
    emit (http_respond 400 (error_body "Session ID is required")) st
  else
    match sessions_get st sessionId with
    | None => emit (http_respond 404 (error_body "Session not found")) st
    | Some s =>
        emit (http_respond 200
                (status_body (id s) (status s) (progress s) (results s) (error s)))
             st
    end.

(** Express hands a request [GET /api/research/<sessionId>] to the
    handler when the path matches [/api/research/:sessionId], and the
    parameter matches a non-empty segment only.  With an empty one the
    request, having passed [authenticate], finds no route, and Express
    answers 404 itself. *)
Definition get_route (sessionId : string) (st : ServerState) : ServerState :=
  if bool_decide (sessionId = "")
  then emit (http_respond 404 no_route_body) st
  else get_research sessionId st.

(** ** Events and runs

    JavaScript runs each callback to completion, so the server is the
    sequence of its callbacks.  An event names the callback the run-time
    invokes next and the data it invokes it with; it comes with the
    reading of the clock at that moment.  No event stands for the [log]
    method of a session's output manager: the manager is a local of the
    route handler, which hands the engine [updateProgress] and nothing
    else, so [onOutput] is never invoked. *)
Inductive event :=
| WsConnection (apiKey sessionId : option string)
    (* a socket connects with this x-api-key header and sessionId parameter *)
| WsClose (ws : nat)
    (* the socket emits 'close' *)
| PostResearch (apiKey : option string) (body : RequestBody) (uuid : string)
    (sync : list ResearchProgress)
    (* a request to start a research; uuidv4() returns uuid, and the
       engine calls onProgress with sync before it returns its promise *)
| GetResearch (apiKey : option string) (sessionId : string)
    (* GET /api/research/<sessionId> *)
| EngineProgress (task : nat) (progress : ResearchProgress)
    (* deepResearch calls the onProgress it was given, in a later turn *)
| ResearchResolved (task : nat) (out : ResearchOutput)
| ResearchRejected (task : nat) (message : string)
| ReportResolved (task : nat) (report : string)
| ReportRejected (task : nat) (message : string).

Definition phase_of (st : ServerState) (r : nat) : option Phase :=
  phase <$> tasks st !! r.

Definition is_reporting (p : option Phase) : bool :=
  match p with
  | Some (reporting _) => true
  | _ => false
  end.

Definition is_researching (p : option Phase) : bool :=
  match p with
  | Some researching => true
  | _ => false
  end.

Definition handle (env : Env) (ev : event) (st : ServerState) : ServerState :=
  match ev with
  | WsConnection apiKey sessionId => ws_connection env apiKey sessionId st
  | WsClose ws => ws_on_close ws st
  | PostResearch apiKey body uuid sync =>
      match authenticate env apiKey with
      | Some response => emit_all response st
      | None => post_research env body uuid sync st
      end
  | GetResearch apiKey sessionId =>
      match authenticate env apiKey with
      | Some response => emit_all response st
      | None => get_route sessionId st
      end
  | EngineProgress r p => updateProgress (output r) p st
  | ResearchResolved r out => research_resolved r out st
  | ResearchRejected r message =>
      if is_researching (phase_of st r) then research_catch r message st else st
  | ReportResolved r report => report_resolved r report st
  | ReportRejected r message =>
      if is_reporting (phase_of st r) then research_catch r message st else st
  end.

Definition step (env : Env) (st : ServerState) (e : Z * event) : ServerState :=
  handle env e.2 (set_clock e.1 st).

Definition run (env : Env) (evs : list (Z * event)) : ServerState :=
  foldl (step env) initial_state evs.

(** ** Orderly lifetimes

    The research engine, [deepResearch] of the module [deep-research], is
    not among the sources; the server hands it [onProgress] and learns of
    its end through the promise.  The lifetime of the session of task [r]
    is orderly in a run when the engine calls the [onProgress] of that
    task only while the promise of its research is still pending: no
    progress update of the task arrives once its research has resolved or
    has been rejected.  The callbacks of the other tasks are not
    constrained.  The server does not enforce this; [onProgress] runs
    whenever it is called. *)
Definition engine_allows (r : nat) (st : ServerState) (ev : event) : bool :=
  match ev with
  | EngineProgress r' _ =>
      if decide (r' = r) then is_researching (phase_of st r) else true
  | _ => true
  end.

Fixpoint orderly_from (env : Env) (r : nat) (st : ServerState)
    (evs : list (Z * event)) : bool :=
  match evs with
  | [] => true
  | e :: evs => engine_allows r st e.2 && orderly_from env r (step env st e) evs
  end.

Definition orderly (env : Env) (r : nat) (evs : list (Z * event)) : bool :=
  orderly_from env r initial_state evs.

(** The task an event is a callback of. *)
Definition event_task (ev : event) : option nat :=
  match ev with
  | EngineProgress r _
  | ResearchResolved r _ | ResearchRejected r _
  | ReportResolved r _ | ReportRejected r _ => Some r
  | _ => None
  end.

(** ** Observations *)

(** What socket [ws] was sent, in order. *)
Definition received (ws : nat) (st : ServerState) : list ProgressUpdate :=
  omap (λ e, match e with
             | ws_send w u => if decide (w = ws) then Some u else None
             | _ => None
             end) (effects st).

(** The calls to [deepResearch], in order. *)
Definition research_calls (st : ServerState) : list DeepResearchParams :=
  omap (λ e, match e with
             | call_deepResearch _ p => Some p
             | _ => None
             end) (effects st).

(** The session object of task [r]. *)
Definition session_of (st : ServerState) (r : nat) : option ResearchSession :=
  session <$> tasks st !! r.

Definition terminal (s : Status) : bool :=
  match s with
  | completed | error_status => true
  | _ => false
  end.

(** Position of a status in the walk pending, in-progress, terminal. *)
Definition rank (s : Status) : nat :=
  match s with
  | pending => 0
  | in_progress => 1
  | completed | error_status => 2
  end.

Definition is_progress_send (e : effect) : bool :=
  match e with
  | ws_send _ (progress_update _) => true
  | _ => false
  end.

(** What a callback added to the effect log of [st]. *)
Definition emitted (st st' : ServerState) : list effect :=
  drop (length (effects st)) (effects st').

(** A number that lies outside the interval from [lo] to [hi]. *)
Definition outside (lo hi : Z) (n : number) : Prop :=
  match n with
  | Finite q => (q < inject_Z lo)%Q ∨ (inject_Z hi < q)%Q
  | PosInfinity | NegInfinity => True
  end.

(** The request [body] with its [mainPromptNotes] key replaced. *)
Definition with_mainPromptNotes (notes : option json) (body : RequestBody)
  : RequestBody :=
  {| rb_query := rb_query body; rb_breadth := rb_breadth body;
     rb_depth := rb_depth body;
     rb_additionalNotes := rb_additionalNotes body;
     rb_mainPromptNotes := notes;
     rb_model := rb_model body; rb_concurrency := rb_concurrency body;
     rb_followUpQuestions := rb_followUpQuestions body |}.

(** ** Invariants *)

(** The shape of a session object after any run, whatever the order in
    which the callbacks arrive.  While the promise chain of its request
    is pending the object has neither results nor error and its status is
    not terminal; once the chain has settled it has exactly one of the
    two.  A status of [pending] means that no snapshot was ever stored, a
    status of [in_progress] that one was. *)
Definition task_ok (t : Task) : Prop :=
  let s := session t in
  (status s = pending → progress s = None) ∧
  (status s = in_progress → is_Some (progress s)) ∧
  match phase t with
  | settled =>
      (is_Some (results s) ∧ error s = None ∧
       (status s = completed ∨ status s = in_progress))
      ∨ (results s = None ∧ is_Some (error s) ∧
         (status s = error_status ∨ status s = in_progress))
  | _ => results s = None ∧ error s = None ∧ terminal (status s) = false
  end.

(** In an orderly lifetime a settled session is in a terminal state. *)
Definition task_settled_terminal (t : Task) : Prop :=
  phase t = settled → terminal (status (session t)) = true.

(** The registry points at allocated objects. *)
Definition registry_ok (st : ServerState) : Prop :=
  ∀ sid r, sessions st !! sid = Some r → r < length (tasks st).

(** Every registry entry points at the session object that was created
    under that id. *)
Definition registry_linked (st : ServerState) : Prop :=
  ∀ sid r, sessions st !! sid = Some r →
    ∃ t, tasks st !! r = Some t ∧ sessionId t = sid ∧ id (session t) = sid.

(** The subscriber map against the sockets: no set in the map is empty,
    no set lists a socket twice, a socket is in the set of [sid] exactly
    when its ['close'] listener is pending for [sid]. *)
Definition subscribers_ok (st : ServerState) : Prop :=
  (∀ sid subs, progressSubscribers st !! sid = Some subs →
     subs ≠ [] ∧ NoDup subs ∧
     ∀ ws, ws ∈ subs → sockets st !! ws = Some (Some sid)) ∧
  (∀ ws sid, sockets st !! ws = Some (Some sid) →
     ∃ subs, progressSubscribers st !! sid = Some subs ∧ ws ∈ subs).

(** The same, of a subscriber map and a socket list by themselves. *)
Definition subscribers_inv (m : gmap string (list nat))
    (l : list (option string)) : Prop :=
  (∀ sid subs, m !! sid = Some subs →
     subs ≠ [] ∧ NoDup subs ∧ ∀ ws, ws ∈ subs → l !! ws = Some (Some sid)) ∧
  (∀ ws sid, l !! ws = Some (Some sid) →
     ∃ subs, m !! sid = Some subs ∧ ws ∈ subs).

(** A number that lies in the interval from [lo] to [hi]. *)
Definition within (lo hi : Z) (n : number) : Prop :=
  ∃ q, n = Finite q ∧ (inject_Z lo <= q)%Q ∧ (q <= inject_Z hi)%Q.

(** What an accepted request may carry. *)
Definition request_in_bounds (v : StartResearchRequest) : Prop :=
  sr_query v ≠ "" ∧
  (∀ n, sr_breadth v = Some n → within 1 10 n) ∧
  (∀ n, sr_depth v = Some n → within 1 5 n) ∧
  (∀ n, sr_concurrency v = Some n → within 1 10 n) ∧
  (∀ n, sr_followUpQuestions v = Some n → within 1 10 n) ∧
  (∀ m n, sr_model v = Some m → contextSize m = Some n →
          within 1000 1000000 n).

(** The closure that a request accepted as [v] under the id [uuid] at
    time [now] starts with. *)
Definition new_task (v : StartResearchRequest) (uuid : string) (now : Z)
  : Task :=
  {| session :=
       {| id := uuid; status := pending; query := sr_query v;
          breadth := default (num_of_Z 4) (sr_breadth v);
          depth := default (num_of_Z 2) (sr_depth v);
          additionalNotes := sr_additionalNotes v;
          mainPromptNotes := sr_mainPromptNotes v;
          progress := None; results := None; error := None;
          createdAt := now; updatedAt := now |};
     sessionId := uuid;
     enhancedQuery := enhance (sr_query v) (sr_additionalNotes v);
     model := sr_model v;
     phase := researching |}.

(** The argument of the [deepResearch] call made for a session object. *)
Definition research_params (v : StartResearchRequest) : DeepResearchParams :=
  {| dr_query := enhance (sr_query v) (sr_additionalNotes v);
     dr_breadth := default (num_of_Z 4) (sr_breadth v);
     dr_depth := default (num_of_Z 2) (sr_depth v);
     dr_model := sr_model v;
     dr_concurrency := sr_concurrency v;
     dr_followUpQuestions := sr_followUpQuestions v |}.

(** The closure [t] after the engine reported [sync] at time [now]. *)
Definition synced (sync : list ResearchProgress) (now : Z) (t : Task) : Task :=
  foldl (λ t progress, with_session (set_progress progress now) t) t sync.

(** The events sent to the subscribers of [sid] for the snapshots
    [sync]. *)
Definition sync_sends (st : ServerState) (sid : string)
    (sync : list ResearchProgress) : list effect :=
  sync ≫= λ progress,
    (λ ws, ws_send ws (progress_update (Some progress)))
      <$> default [] (progressSubscribers st !! sid).

(** A session object whose parameters are within the documented bounds. *)
Definition task_in_bounds (t : Task) : Prop :=
  query (session t) ≠ "" ∧
  within 1 10 (breadth (session t)) ∧
  within 1 5 (depth (session t)).

(** What is fixed when a request is accepted: the fields of the session
    object that no callback assigns, and the constants of the closure. *)
Definition fixed_part (t : Task) :=
  (id (session t), query (session t), breadth (session t), depth (session t),
   additionalNotes (session t), mainPromptNotes (session t),
   createdAt (session t), sessionId t, enhancedQuery t, model t).

(** What a callback keeps of a session object: the fixed part, and a
    snapshot, results or an error once they are there. *)
Definition keeps (t1 t2 : Task) : Prop :=
  fixed_part t2 = fixed_part t1 ∧
  (is_Some (progress (session t1)) → is_Some (progress (session t2))) ∧
  (is_Some (results (session t1)) → is_Some (results (session t2))) ∧
  (is_Some (error (session t1)) → is_Some (error (session t2))).

(** The calls of the research engine and of the report writer. *)
Definition is_call (e : effect) : bool :=
  match e with
  | call_deepResearch _ _ | call_writeFinalReport _ _ => true
  | _ => false
  end.

(** The effect log against the session objects: every call was made for
    a session object and with the prompt and model of its closure, and
    every session object has had its call of [deepResearch]. *)
Definition calls_ok (st : ServerState) : Prop :=
  (∀ r p, call_deepResearch r p ∈ effects st →
     ∃ t, tasks st !! r = Some t ∧
          dr_query p = enhancedQuery t ∧ dr_model p = model t ∧
          dr_breadth p = breadth (session t) ∧
          dr_depth p = depth (session t)) ∧
  (∀ r rp, call_writeFinalReport r rp ∈ effects st →
     ∃ t, tasks st !! r = Some t ∧
          rp_prompt rp = enhancedQuery t ∧ rp_model rp = model t) ∧
  (∀ r t, tasks st !! r = Some t → ∃ p, call_deepResearch r p ∈ effects st).

(** The events task [r] sends when it fans [update] out. *)
Definition fanout (st : ServerState) (r : nat) (update : ProgressUpdate)
  : list effect :=
  match tasks st !! r with
  | Some t =>
      (λ ws, ws_send ws update)
        <$> default [] (progressSubscribers st !! sessionId t)
  | None => []
  end.

(** The updates among [es] that go to socket [ws]. *)
Definition sent_to (ws : nat) (es : list effect) : list ProgressUpdate :=
  omap (λ e, match e with
             | ws_send w u => if decide (w = ws) then Some u else None
             | _ => None
             end) es.

(** The task each call of [deepResearch] was made for, in order. *)
Definition research_call_tasks (st : ServerState) : list nat :=
  omap (λ e, match e with
             | call_deepResearch r _ => Some r
             | _ => None
             end) (effects st).

(** A request body with a query and nothing else. *)
Definition body_of_query (q : string) : RequestBody :=
  {| rb_query := Some (JString q);
     rb_breadth := None; rb_depth := None;
     rb_additionalNotes := None; rb_mainPromptNotes := None;
     rb_model := None; rb_concurrency := None;
     rb_followUpQuestions := None |}.

(** ** Sample data and runs *)

Definition env0 : Env := {| API_KEY := Some "secret"; NODE_ENV := None |}.

Definition key0 : option string := Some "secret".

Definition body0 : RequestBody :=
  {| rb_query := Some (JString "quantum computing");
     rb_breadth := Some (JNumber (num_of_Z 2));
     rb_depth := Some (JNumber (num_of_Z 1));
     rb_additionalNotes := None; rb_mainPromptNotes := None;
     rb_model := None; rb_concurrency := None;
     rb_followUpQuestions := None |}.

Definition body_with_additionalNotes : RequestBody :=
  {| rb_query := Some (JString "quantum computing");
     rb_breadth := None; rb_depth := None;
     rb_additionalNotes := Some (JString "Use bullet points.");
     rb_mainPromptNotes := None;
     rb_model := None; rb_concurrency := None;
     rb_followUpQuestions := None |}.

Definition body_too_broad : RequestBody :=
  {| rb_query := Some (JString "quantum computing");
     rb_breadth := Some (JNumber (num_of_Z 11));
     rb_depth := None;
     rb_additionalNotes := None; rb_mainPromptNotes := None;
     rb_model := None; rb_concurrency := None;
     rb_followUpQuestions := None |}.

Definition progress0 : ResearchProgress :=
  {| currentDepth := num_of_Z 1; totalDepth := num_of_Z 1;
     currentBreadth := num_of_Z 2; totalBreadth := num_of_Z 2;
     currentQuery := Some "qubits"; totalQueries := num_of_Z 2;
     completedQueries := num_of_Z 0 |}.

Definition out0 : ResearchOutput :=
  {| out_learnings := ["finding"]; out_visitedUrls := ["http://a"] |}.

Definition post0 : Z * event := (1%Z, PostResearch key0 body0 "s1" []).

Definition attach0 : Z * event := (2%Z, WsConnection key0 (Some "s1")).

(** A session is created and watched. *)
Definition pending_run : list (Z * event) := [post0; attach0].

(** The engine reports progress once. *)
Definition started_run : list (Z * event) :=
  pending_run ++ [(3%Z, EngineProgress 0 progress0)].

(** The research resolves and the report is being written. *)
Definition reporting_run : list (Z * event) :=
  started_run ++ [(4%Z, ResearchResolved 0 out0)].

(** The research resolves and the report arrives: the session
    completes. *)
Definition finishing : list (Z * event) :=
  [(4%Z, ResearchResolved 0 out0); (5%Z, ReportResolved 0 "the report")].

Definition completed_run : list (Z * event) := started_run ++ finishing.

(** The report fails instead. *)
Definition report_failed_run : list (Z * event) :=
  reporting_run ++ [(5%Z, ReportRejected 0 "model unavailable")].

(** A session whose research fails at once. *)
Definition failed_run : list (Z * event) :=
  pending_run ++ [(3%Z, ResearchRejected 0 "boom")].

(** The engine calls [onProgress] after the promise chain has settled. *)
Definition late_progress : Z * event := (9%Z, EngineProgress 0 progress0).

(** A server whose [API_KEY] is not set. *)
Definition env_unset : Env := {| API_KEY := None; NODE_ENV := None |}.

(** A second session is created and watched by a second socket. *)
Definition two_sessions_run : list (Z * event) :=
  started_run ++
  [(4%Z, PostResearch key0 (body_of_query "protein folding") "s2" []);
   (5%Z, WsConnection key0 (Some "s2"))].

Definition progress1 : ResearchProgress :=
  {| currentDepth := num_of_Z 2; totalDepth := num_of_Z 2;
     currentBreadth := num_of_Z 4; totalBreadth := num_of_Z 4;
     currentQuery := Some "chaperones"; totalQueries := num_of_Z 4;
     completedQueries := num_of_Z 1 |}.

(** The research of the second session fails, and the engine reports
    progress for it afterwards; the first session is still running. *)
Definition second_session_late : list (Z * event) :=
  two_sessions_run ++
  [(6%Z, ResearchRejected 1 "boom"); (7%Z, EngineProgress 1 progress1)].

(** The first session then completes. *)
Definition first_session_finishing : list (Z * event) :=
  [(8%Z, ResearchResolved 0 out0); (9%Z, ReportResolved 0 "the report")].

(** * Properties *)

(** ** Runs *)

Lemma run_snoc env evs e : run env (evs ++ [e]) = step env (run env evs) e.
Proof. unfold run. apply foldl_snoc. Qed.

Lemma run_app env evs1 evs2 :
  run env (evs1 ++ evs2) = foldl (step env) (run env evs1) evs2.
Proof. unfold run. apply foldl_app. Qed.

(** A property of the initial state that every callback preserves holds
    after every run. *)
Lemma run_invariant env (P : ServerState → Prop) :
  P initial_state →
  (∀ st e, P st → P (step env st e)) →
  ∀ evs, P (run env evs).
Proof.
  intros Hinit Hstep evs. induction evs as [|e evs IH] using rev_ind.
  - exact Hinit.
  - rewrite run_snoc. by apply Hstep.
Qed.

(** Updating an object that was never allocated does nothing. *)
Lemma alter_unallocated {A} (f : A → A) (l : list A) (i : nat) :
  l !! i = None → alter f i l = l.
Proof.
  revert i. induction l as [|x l IH]; intros [|i] H; simpl in *; try done.
  f_equal. by apply IH.
Qed.

(** ** What fan-out touches *)

Lemma broadcast_effects sid u st :
  effects (broadcast sid u st) =
  effects st ++ ((λ ws, ws_send ws u) <$> default [] (progressSubscribers st !! sid)).
Proof.
  unfold broadcast. destruct (progressSubscribers st !! sid); simpl; [done|].
  by rewrite app_nil_r.
Qed.

Lemma broadcast_tasks sid u st : tasks (broadcast sid u st) = tasks st.
Proof. unfold broadcast. by destruct (progressSubscribers st !! sid). Qed.

Lemma broadcast_sessions sid u st : sessions (broadcast sid u st) = sessions st.
Proof. unfold broadcast. by destruct (progressSubscribers st !! sid). Qed.

Lemma broadcast_progressSubscribers sid u st :
  progressSubscribers (broadcast sid u st) = progressSubscribers st.
Proof. unfold broadcast. by destruct (progressSubscribers st !! sid). Qed.

(** ** How each callback changes the session objects

    A callback leaves [tasks] alone, updates one object in place, or
    allocates one at the end. *)

Lemma ws_connection_tasks env apiKey sessionId st :
  tasks (ws_connection env apiKey sessionId st) = tasks st.
Proof. unfold ws_connection. repeat case_match; done. Qed.

Lemma ws_on_close_tasks ws st : tasks (ws_on_close ws st) = tasks st.
Proof. unfold ws_on_close. repeat case_match; done. Qed.

Lemma get_research_tasks sid st : tasks (get_research sid st) = tasks st.
Proof. unfold get_research. repeat case_match; done. Qed.

Lemma get_route_tasks sid st : tasks (get_route sid st) = tasks st.
Proof. unfold get_route. case_match; [done|apply get_research_tasks]. Qed.

Lemma session_onOutput_tasks r m st : tasks (session_onOutput r m st) = tasks st.
Proof.
  unfold session_onOutput. case_match; [|done]. apply broadcast_tasks.
Qed.

Lemma session_onProgress_tasks r p st :
  tasks (session_onProgress r p st) =
  alter (with_session (set_progress p (clock st))) r (tasks st).
Proof.
  unfold session_onProgress. destruct (tasks st !! r) eqn:E.
  - by rewrite broadcast_tasks.
  - by rewrite alter_unallocated.
Qed.

Lemma research_catch_tasks r m st :
  tasks (research_catch r m st) =
  alter (λ t, with_phase settled (with_session (set_error m (clock st)) t))
        r (tasks st).
Proof.
  unfold research_catch. destruct (tasks st !! r) eqn:E.
  - by rewrite broadcast_tasks.
  - by rewrite alter_unallocated.
Qed.

(** The output manager of a task is headless: its two methods are the
    two callbacks. *)
Lemma updateProgress_output r p st :
  updateProgress (output r) p st = session_onProgress r p st.
Proof. reflexivity. Qed.

Lemma log_output r args st :
  log (output r) args st = session_onOutput r (join " " args) st.
Proof. reflexivity. Qed.

(** ** The synchronous part of the engine *)

Lemma synced_snoc sync p now t :
  synced (sync ++ [p]) now t = with_session (set_progress p now) (synced sync now t).
Proof. unfold synced. by rewrite foldl_snoc. Qed.

(** The engine's snapshots change the status, the snapshot and the time
    of the last update, and nothing else. *)
Lemma synced_fields sync now t :
  sessionId (synced sync now t) = sessionId t ∧
  enhancedQuery (synced sync now t) = enhancedQuery t ∧
  model (synced sync now t) = model t ∧
  phase (synced sync now t) = phase t ∧
  id (session (synced sync now t)) = id (session t) ∧
  query (session (synced sync now t)) = query (session t) ∧
  breadth (session (synced sync now t)) = breadth (session t) ∧
  depth (session (synced sync now t)) = depth (session t) ∧
  additionalNotes (session (synced sync now t)) = additionalNotes (session t) ∧
  mainPromptNotes (session (synced sync now t)) = mainPromptNotes (session t) ∧
  results (session (synced sync now t)) = results (session t) ∧
  error (session (synced sync now t)) = error (session t) ∧
  createdAt (session (synced sync now t)) = createdAt (session t).
Proof.
  induction sync as [|p sync IH] using rev_ind; [done|].
  rewrite synced_snoc. simpl. exact IH.
Qed.

Lemma synced_status sync now t :
  status (session (synced sync now t)) =
  match sync with [] => status (session t) | _ => in_progress end ∧
  progress (session (synced sync now t)) =
  match last sync with Some p => Some p | None => progress (session t) end ∧
  updatedAt (session (synced sync now t)) =
  match sync with [] => updatedAt (session t) | _ => now end.
Proof.
  destruct sync as [|p sync _] using rev_ind; [done|].
  rewrite synced_snoc, last_snoc. simpl. by destruct sync.
Qed.

Lemma session_onProgress_frame r p st :
  sessions (session_onProgress r p st) = sessions st ∧
  progressSubscribers (session_onProgress r p st) = progressSubscribers st ∧
  sockets (session_onProgress r p st) = sockets st ∧
  clock (session_onProgress r p st) = clock st.
Proof.
  unfold session_onProgress, broadcast. by repeat case_match.
Qed.

Lemma session_onProgress_effects r p st :
  effects (session_onProgress r p st) =
  effects st ++ fanout st r (progress_update (Some p)).
Proof.
  unfold session_onProgress, fanout.
  destruct (tasks st !! r) as [t|]; [|by rewrite app_nil_r].
  by rewrite broadcast_effects.
Qed.

(** What the synchronous part of the engine leaves behind: the session
    object of the task has gone through the snapshots, and each snapshot
    was fanned out to the subscribers of the session's id. *)
Lemma deepResearch_sync_state r sync st :
  let st' := deepResearch_sync r sync st in
  tasks st' = alter (synced sync (clock st)) r (tasks st) ∧
  sessions st' = sessions st ∧
  progressSubscribers st' = progressSubscribers st ∧
  sockets st' = sockets st ∧
  clock st' = clock st ∧
  effects st' =
  effects st ++ (sync ≫= λ p, fanout st r (progress_update (Some p))).
Proof.
  induction sync as [|p sync IH] using rev_ind; simpl.
  { rewrite app_nil_r. repeat split; try done.
    symmetry. apply list_eq. intros i. rewrite list_lookup_alter.
    case_decide; [subst i|done]. by destruct (tasks st !! r). }
  destruct IH as (Htasks & Hsessions & Hsubs & Hsockets & Hclock & Heffects).
  unfold deepResearch_sync in *. rewrite foldl_snoc, updateProgress_output.
  set (st1 := foldl _ st sync) in *.
  destruct (session_onProgress_frame r p st1) as (-> & -> & -> & ->).
  rewrite session_onProgress_tasks, session_onProgress_effects.
  repeat split; try done.
  - rewrite Htasks, Hclock. apply list_eq. intros i.
    rewrite !list_lookup_alter. case_decide; [subst i|done].
    rewrite decide_True by done.
    destruct (tasks st !! r); simpl; [|done]. by rewrite synced_snoc.
  - rewrite Heffects, bind_app, <- app_assoc. f_equal. f_equal. simpl.
    rewrite app_nil_r. unfold fanout. rewrite Htasks, Hsubs.
    rewrite list_lookup_alter_eq.
    destruct (tasks st !! r) as [t|]; simpl; [|done].
    by destruct (synced_fields sync (clock st) t) as (-> & _).
Qed.

(** What an accepted request does: it allocates the session object,
    registers it, calls [deepResearch] once with [enhancedQuery], through
    which the engine may report its first snapshots, and answers with the
    status the session object then has. *)
Lemma post_research_accepted_state env body uuid sync st v :
  startResearchSchema_parse body = Some v →
  let t := synced sync (clock st) (new_task v uuid (clock st)) in
  tasks (post_research env body uuid sync st) = tasks st ++ [t] ∧
  sessions (post_research env body uuid sync st)
  = <[uuid := length (tasks st)]> (sessions st) ∧
  progressSubscribers (post_research env body uuid sync st)
  = progressSubscribers st ∧
  sockets (post_research env body uuid sync st) = sockets st ∧
  effects (post_research env body uuid sync st)
  = effects st ++
    call_deepResearch (length (tasks st)) (research_params v)
    :: sync_sends st uuid sync
    ++ [http_respond 200 (started_body uuid (status (session t)))].
Proof.
  intros Hparse t. unfold post_research. rewrite Hparse. simpl.
  match goal with
  | |- context [deepResearch_sync ?r sync ?st0] =>
      destruct (deepResearch_sync_state r sync st0)
        as (Htasks & Hsessions & Hsubs & Hsockets & _ & Heffects);
      set (st1 := deepResearch_sync r sync st0) in *
  end.
  simpl in *.
  assert (tasks st1 = tasks st ++ [t]) as Htasks'.
  { rewrite Htasks.
    rewrite alter_app_r_alt by done. by rewrite Nat.sub_diag. }
  split; [done|]. split; [done|]. split; [done|]. split; [done|].
  rewrite Heffects. rewrite <- !app_assoc. simpl. f_equal. f_equal.
  f_equal.
  - unfold sync_sends. clear. induction sync as [|p sync IH]; [done|].
    rewrite !bind_cons, IH. f_equal. unfold fanout. simpl.
    by rewrite list_lookup_middle.
  - unfold live_status. rewrite Htasks', list_lookup_middle by done. done.
Qed.

Lemma post_research_rejected env body uuid sync st :
  startResearchSchema_parse body = None →
  post_research env body uuid sync st = errorHandler env st.
Proof. intros Hparse. unfold post_research. by rewrite Hparse. Qed.

Lemma post_research_tasks env body uuid sync st :
  tasks (post_research env body uuid sync st) = tasks st ∨
  ∃ t, tasks (post_research env body uuid sync st) = tasks st ++ [t] ∧
       phase t = researching ∧
       results (session t) = None ∧ error (session t) = None ∧
       (status (session t) = pending ∧ progress (session t) = None ∨
        status (session t) = in_progress ∧ is_Some (progress (session t))).
Proof.
  destruct (startResearchSchema_parse body) as [v|] eqn:Hparse.
  - right.
    destruct (post_research_accepted_state env body uuid sync st v Hparse)
      as (Htasks & _).
    eexists. split; [exact Htasks|].
    destruct (synced_fields sync (clock st) (new_task v uuid (clock st)))
      as (_ & _ & _ & -> & _ & _ & _ & _ & _ & _ & -> & -> & _).
    destruct (synced_status sync (clock st) (new_task v uuid (clock st)))
      as (-> & -> & _).
    split; [done|]. split; [done|]. split; [done|].
    destruct sync as [|p sync _] using rev_ind; [by left|].
    right. rewrite last_snoc. split; [by destruct sync|by eexists].
  - left. by rewrite post_research_rejected.
Qed.

Lemma research_resolved_tasks r out st :
  tasks (research_resolved r out st) =
  if is_researching (phase_of st r)
  then alter (with_phase (reporting out)) r (tasks st)
  else tasks st.
Proof.
  unfold research_resolved, phase_of.
  destruct (tasks st !! r) as [t|]; simpl; [|done].
  by destruct (phase t).
Qed.

Lemma report_resolved_tasks r report st :
  tasks (report_resolved r report st) =
  match phase_of st r with
  | Some (reporting out) =>
      alter (λ t, with_phase settled
                    (with_session
                       (set_completed {| learnings := out_learnings out;
                                         visitedUrls := out_visitedUrls out;
                                         report := Some report |} (clock st)) t))
            r (tasks st)
  | _ => tasks st
  end.
Proof.
  unfold report_resolved, phase_of.
  destruct (tasks st !! r) as [t|]; simpl; [|done].
  destruct (phase t); try done. by rewrite broadcast_tasks.
Qed.

Lemma phase_of_Some st r p :
  phase_of st r = Some p ↔ ∃ t, tasks st !! r = Some t ∧ phase t = p.
Proof.
  unfold phase_of. destruct (tasks st !! r) as [t|]; simpl; split.
  - intros [= <-]. eauto.
  - intros (? & [= <-] & <-). done.
  - done.
  - intros (? & [=] & _).
Qed.

Lemma task_ok_handle env ev st :
  Forall task_ok (tasks st) → Forall task_ok (tasks (handle env ev st)).
Proof.
  intros Hok.
  destruct ev as [apiKey sid|ws|apiKey body uuid sync|apiKey sid|r p
                 |r out|r message|r report|r message]; cbn [handle fst snd].
  - by rewrite ws_connection_tasks.
  - by rewrite ws_on_close_tasks.
  - destruct (authenticate env apiKey); [done|].
    destruct (post_research_tasks env body uuid sync st)
      as [->|(t & -> & Hp & Hr & He & Hs)]; [done|].
    apply Forall_app; split; [done|]. apply Forall_singleton.
    unfold task_ok. rewrite Hp, Hr, He.
    destruct Hs as [[-> ->]|[-> Hpr]]; done.
  - destruct (authenticate env apiKey); [done|]. by rewrite get_route_tasks.
  - rewrite updateProgress_output, session_onProgress_tasks.
    apply Forall_alter; [done|].
    intros t _ (H1 & H2 & H3). unfold task_ok; simpl.
    split; [done|]. split; [eauto|].
    destruct (phase t); simpl in *; [naive_solver|naive_solver|].
    destruct H3 as [(? & ? & ?)|(? & ? & ?)]; [left|right]; eauto.
  - rewrite research_resolved_tasks.
    destruct (is_researching _) eqn:E; [|done]. apply Forall_alter; [done|].
    intros t Ht (H1 & H2 & H3). unfold task_ok; simpl.
    unfold phase_of in E; simpl in E. rewrite Ht in E; simpl in E.
    destruct (phase t); naive_solver.
  - destruct (is_researching _) eqn:E; [|done].
    rewrite research_catch_tasks. apply Forall_alter; [done|].
    intros t Ht (H1 & H2 & H3). unfold task_ok; simpl.
    unfold phase_of in E; simpl in E. rewrite Ht in E; simpl in E.
    destruct (phase t); try done. naive_solver.
  - rewrite report_resolved_tasks. simpl.
    destruct (phase_of st r) as [[]|] eqn:E; try done.
    apply Forall_alter; [done|].
    intros t Ht (H1 & H2 & H3). unfold task_ok; simpl.
    apply phase_of_Some in E as (t' & Ht' & Hp).
    assert (t' = t) as -> by congruence. rewrite Hp in H3.
    naive_solver.
  - destruct (is_reporting _) eqn:E; [|done].
    rewrite research_catch_tasks. apply Forall_alter; [done|].
    intros t Ht (H1 & H2 & H3). unfold task_ok; simpl.
    unfold phase_of in E; simpl in E. rewrite Ht in E; simpl in E.
    destruct (phase t); try done. naive_solver.
Qed.

Lemma run_task_ok env evs : Forall task_ok (tasks (run env evs)).
Proof.
  apply (run_invariant env (λ st, Forall task_ok (tasks st))).
  - constructor.
  - intros st e H. by apply task_ok_handle.
Qed.

Lemma run_task_ok_lookup env evs r t :
  tasks (run env evs) !! r = Some t → task_ok t.
Proof.
  intros H. eapply Forall_lookup_1; [apply run_task_ok|exact H].
Qed.

(** ** The registry points at allocated objects *)

Lemma handle_tasks_length env ev st :
  length (tasks st) ≤ length (tasks (handle env ev st)).
Proof.
  destruct ev as [apiKey sid|ws|apiKey body uuid sync|apiKey sid|r p
                 |r out|r message|r report|r message]; cbn [handle].
  - by rewrite ws_connection_tasks.
  - by rewrite ws_on_close_tasks.
  - destruct (authenticate env apiKey); [done|].
    destruct (post_research_tasks env body uuid sync st) as [->|(t & -> & _)];
      [done|]. rewrite length_app. lia.
  - destruct (authenticate env apiKey); [done|]. by rewrite get_route_tasks.
  - by rewrite updateProgress_output, session_onProgress_tasks, length_alter.
  - rewrite research_resolved_tasks. case_match; by rewrite ?length_alter.
  - case_match; [|done]. by rewrite research_catch_tasks, length_alter.
  - rewrite report_resolved_tasks. repeat case_match; by rewrite ?length_alter.
  - case_match; [|done]. by rewrite research_catch_tasks, length_alter.
Qed.

Lemma research_resolved_sessions r out st :
  sessions (research_resolved r out st) = sessions st.
Proof. unfold research_resolved. repeat case_match; done. Qed.

Lemma report_resolved_sessions r report st :
  sessions (report_resolved r report st) = sessions st.
Proof.
  unfold report_resolved. repeat case_match; try done.
  by rewrite broadcast_sessions.
Qed.

Lemma research_catch_sessions r m st :
  sessions (research_catch r m st) = sessions st.
Proof.
  unfold research_catch. case_match; [|done]. by rewrite broadcast_sessions.
Qed.

Lemma session_onProgress_sessions r p st :
  sessions (session_onProgress r p st) = sessions st.
Proof.
  unfold session_onProgress. case_match; [|done]. by rewrite broadcast_sessions.
Qed.

Lemma session_onOutput_sessions r m st :
  sessions (session_onOutput r m st) = sessions st.
Proof.
  unfold session_onOutput. case_match; [|done]. by rewrite broadcast_sessions.
Qed.

Lemma ws_connection_sessions env apiKey sessionId st :
  sessions (ws_connection env apiKey sessionId st) = sessions st.
Proof. unfold ws_connection. repeat case_match; done. Qed.

Lemma ws_on_close_sessions ws st : sessions (ws_on_close ws st) = sessions st.
Proof. unfold ws_on_close. repeat case_match; done. Qed.

Lemma get_research_sessions sid st : sessions (get_research sid st) = sessions st.
Proof. unfold get_research. repeat case_match; done. Qed.

Lemma get_route_sessions sid st : sessions (get_route sid st) = sessions st.
Proof. unfold get_route. case_match; [done|apply get_research_sessions]. Qed.

Lemma get_route_nonempty sid st :
  sid ≠ "" → get_route sid st = get_research sid st.
Proof. intros H. unfold get_route. by rewrite bool_decide_eq_false_2. Qed.

Lemma registry_ok_handle env ev st :
  registry_ok st → registry_ok (handle env ev st).
Proof.
  intros Hok sid r.
  pose proof (handle_tasks_length env ev st) as Hlen.
  assert (sessions st !! sid = Some r → r < length (tasks (handle env ev st)))
    as Hold by (intros H; apply Hok in H; lia).
  clear Hlen.
  destruct ev as [apiKey s|ws|apiKey body uuid sync|apiKey s|r' p
                 |r' out|r' message|r' report|r' message]; cbn [handle] in *.
  - by rewrite ws_connection_sessions.
  - by rewrite ws_on_close_sessions.
  - destruct (authenticate env apiKey); [done|].
    destruct (startResearchSchema_parse body) as [v|] eqn:Hparse;
      [|by rewrite post_research_rejected in * by done].
    destruct (post_research_accepted_state env body uuid sync st v Hparse)
      as (Htasks & Hsessions & _).
    rewrite Htasks, Hsessions in *.
    rewrite lookup_insert. case_decide as Heq.
    + intros [= <-]. rewrite length_app; simpl. lia.
    + done.
  - destruct (authenticate env apiKey); [done|]. by rewrite get_route_sessions.
  - by rewrite updateProgress_output, session_onProgress_sessions.
  - by rewrite research_resolved_sessions.
  - case_match; [|done]. by rewrite research_catch_sessions.
  - by rewrite report_resolved_sessions.
  - case_match; [|done]. by rewrite research_catch_sessions.
Qed.

Lemma run_registry_ok env evs : registry_ok (run env evs).
Proof.
  apply (run_invariant env registry_ok).
  - intros sid r H. simpl in H. by rewrite lookup_empty in H.
  - intros st [now ev] H. apply registry_ok_handle. exact H.
Qed.

(** After [sessions.has(sessionId)] answered [true],
    [sessions.get(sessionId)] is an object: the [!] of the connection
    handler is safe and its [catch] block is dead. *)
Lemma sessions_get_has env evs sid :
  sessions_has (run env evs) sid = true →
  is_Some (sessions_get (run env evs) sid).
Proof.
  unfold sessions_has, sessions_get. intros H.
  apply bool_decide_eq_true in H as [r Hr]. rewrite Hr; simpl.
  apply run_registry_ok in Hr. apply lookup_lt_is_Some_2 in Hr as [t Ht].
  rewrite Ht. by eexists.
Qed.

(** ** Orderly lifetimes *)

Lemma orderly_from_app env r st evs1 evs2 :
  orderly_from env r st (evs1 ++ evs2) =
  orderly_from env r st evs1 &&
  orderly_from env r (foldl (step env) st evs1) evs2.
Proof.
  revert st. induction evs1 as [|e evs1 IH]; intros st; simpl; [done|].
  rewrite IH. by rewrite andb_assoc.
Qed.

Lemma orderly_app env r evs1 evs2 :
  orderly env r (evs1 ++ evs2) = true ↔
  orderly env r evs1 = true ∧ orderly_from env r (run env evs1) evs2 = true.
Proof. unfold orderly, run. rewrite orderly_from_app. apply andb_true_iff. Qed.

Lemma orderly_snoc env r evs e :
  orderly env r (evs ++ [e]) = true ↔
  orderly env r evs = true ∧ engine_allows r (run env evs) e.2 = true.
Proof.
  rewrite orderly_app. simpl. by rewrite andb_true_r.
Qed.

(** In the sample runs the lifetime of the session is orderly; with a
    late progress update it is not.  A late progress update of the second
    session leaves the lifetime of the first one orderly. *)
Lemma sample_runs_orderly :
  orderly env0 0 completed_run = true ∧
  orderly env0 0 report_failed_run = true ∧
  orderly env0 0 failed_run = true ∧
  orderly env0 0 (failed_run ++ [late_progress]) = false ∧
  orderly env0 0 (completed_run ++ [late_progress]) = false ∧
  orderly env0 0 (second_session_late ++ first_session_finishing) = true ∧
  orderly env0 1 (second_session_late ++ first_session_finishing) = false.
Proof. vm_compute. done. Qed.

(** A property of the initial state that every callback admitted by
    [engine_allows r] preserves holds after every run in which the
    lifetime of task [r] is orderly. *)
Lemma orderly_invariant env r (P : ServerState → Prop) :
  P initial_state →
  (∀ st e, engine_allows r st e.2 = true → P st → P (step env st e)) →
  ∀ evs, orderly env r evs = true → P (run env evs).
Proof.
  intros Hinit Hstep evs. induction evs as [|e evs IH] using rev_ind.
  - intros _. exact Hinit.
  - rewrite orderly_snoc, run_snoc. intros [Ho Ha]. apply Hstep; auto.
Qed.

(** What a callback does to the session object of task [r]: it leaves it
    alone or applies [f] to it. *)
Lemma alter_lookup_cases (f : Task → Task) (r' r : nat) (l : list Task) t :
  alter f r' l !! r = Some t →
  l !! r = Some t ∨ (r' = r ∧ ∃ t1, l !! r = Some t1 ∧ t = f t1).
Proof.
  rewrite list_lookup_alter. case_decide as Heq; [subst r'|by left].
  destruct (l !! r) as [t1|] eqn:E; simpl; [|discriminate].
  intros [= <-]. right. split; [done|]. by exists t1.
Qed.

Lemma task_settled_terminal_handle env ev st r :
  engine_allows r st ev = true →
  (∀ t, tasks st !! r = Some t → task_settled_terminal t) →
  ∀ t, tasks (handle env ev st) !! r = Some t → task_settled_terminal t.
Proof.
  intros Hallow Hok t.
  destruct ev as [apiKey sid|ws|apiKey body uuid sync|apiKey sid|r' p
                 |r' out|r' message|r' report|r' message]; cbn [handle].
  - rewrite ws_connection_tasks. apply Hok.
  - rewrite ws_on_close_tasks. apply Hok.
  - destruct (authenticate env apiKey); [apply Hok|].
    destruct (post_research_tasks env body uuid sync st)
      as [->|(t' & -> & Hp & _)]; [apply Hok|].
    intros Ht. apply lookup_app_Some in Ht as [Ht|[_ Ht]]; [by apply Hok|].
    apply list_lookup_singleton_Some in Ht as [_ <-].
    unfold task_settled_terminal. by rewrite Hp.
  - destruct (authenticate env apiKey); [apply Hok|].
    rewrite get_route_tasks. apply Hok.
  - rewrite updateProgress_output, session_onProgress_tasks.
    intros Ht. apply alter_lookup_cases in Ht
      as [Ht|(-> & t1 & Ht1 & ->)]; [by apply Hok|].
    simpl in Hallow. rewrite decide_True in Hallow by done.
    unfold phase_of in Hallow. rewrite Ht1 in Hallow; simpl in Hallow.
    unfold task_settled_terminal; simpl. by destruct (phase t1).
  - rewrite research_resolved_tasks. case_match; [|apply Hok].
    intros Ht. apply alter_lookup_cases in Ht
      as [Ht|(-> & t1 & Ht1 & ->)]; [by apply Hok|]. done.
  - case_match; [|apply Hok]. rewrite research_catch_tasks.
    intros Ht. apply alter_lookup_cases in Ht
      as [Ht|(-> & t1 & Ht1 & ->)]; [by apply Hok|]. done.
  - rewrite report_resolved_tasks. repeat case_match; try apply Hok.
    intros Ht. apply alter_lookup_cases in Ht
      as [Ht|(-> & t1 & Ht1 & ->)]; [by apply Hok|]. done.
  - case_match; [|apply Hok]. rewrite research_catch_tasks.
    intros Ht. apply alter_lookup_cases in Ht
      as [Ht|(-> & t1 & Ht1 & ->)]; [by apply Hok|]. done.
Qed.

Lemma orderly_settled_terminal env evs r t :
  orderly env r evs = true →
  tasks (run env evs) !! r = Some t →
  task_settled_terminal t.
Proof.
  intros Ho. revert t. revert Ho.
  apply (orderly_invariant env r
    (λ st, ∀ t, tasks st !! r = Some t → task_settled_terminal t)).
  - intros t Ht. simpl in Ht. by rewrite lookup_nil in Ht.
  - intros st [now ev] Ha H. by apply task_settled_terminal_handle.
Qed.

(** ** One callback, one session object *)

Lemma terminal_settled t :
  task_ok t → terminal (status (session t)) = true → phase t = settled.
Proof.
  intros (_ & _ & H) Hterm.
  destruct (phase t); [| |done]; destruct H as (_ & _ & H); congruence.
Qed.

Lemma nonterminal_rank s : terminal s = false → rank s ≤ 1.
Proof. destruct s; simpl; intros; (lia || done). Qed.

(** A callback admitted by [engine_allows r] never lowers the rank of
    the status of the session of task [r], and leaves that session in a
    terminal state exactly as it is. *)
Lemma status_walk_handle env ev st r t1 :
  Forall task_ok (tasks st) →
  engine_allows r st ev = true →
  tasks st !! r = Some t1 →
  ∃ t2, tasks (handle env ev st) !! r = Some t2 ∧
        rank (status (session t1)) ≤ rank (status (session t2)) ∧
        (terminal (status (session t1)) = true → t2 = t1).
Proof.
  intros Hok Hallow Ht1.
  assert (task_ok t1) as Hok1 by (eapply Forall_lookup_1; eauto).
  pose proof (terminal_settled t1 Hok1) as Hsettled.
  assert (∀ f : Task → Task, ∀ r',
    (r' = r → rank (status (session t1)) ≤ rank (status (session (f t1))) ∧
              (terminal (status (session t1)) = true → f t1 = t1)) →
    ∃ t2, alter f r' (tasks st) !! r = Some t2 ∧
          rank (status (session t1)) ≤ rank (status (session t2)) ∧
          (terminal (status (session t1)) = true → t2 = t1)) as Halter.
  { intros f r' Hf. rewrite list_lookup_alter. case_decide as Heq.
    - subst r'. rewrite Ht1. simpl. eexists; split; [done|]. by apply Hf.
    - rewrite Ht1. eauto. }
  assert (∃ t2, tasks st !! r = Some t2 ∧
          rank (status (session t1)) ≤ rank (status (session t2)) ∧
          (terminal (status (session t1)) = true → t2 = t1)) as Hsame by eauto.
  destruct ev as [apiKey sid|ws|apiKey body uuid sync|apiKey sid|r' p
                 |r' out|r' message|r' report|r' message]; cbn [handle].
  - by rewrite ws_connection_tasks.
  - by rewrite ws_on_close_tasks.
  - destruct (authenticate env apiKey); [done|].
    destruct (post_research_tasks env body uuid sync st)
      as [->|(t & -> & _)]; [done|].
    exists t1. split; [by apply lookup_app_l_Some|]. done.
  - destruct (authenticate env apiKey); [done|]. by rewrite get_route_tasks.
  - rewrite updateProgress_output, session_onProgress_tasks.
    apply Halter. intros ->. simpl in Hallow.
    rewrite decide_True in Hallow by done. unfold phase_of in Hallow.
    rewrite Ht1 in Hallow; simpl in Hallow.
    destruct Hok1 as (_ & _ & H3). destruct (phase t1); try done.
    destruct H3 as (_ & _ & Hnt). split.
    + simpl. by apply nonterminal_rank.
    + congruence.
  - rewrite research_resolved_tasks.
    destruct (is_researching (phase_of st r')) eqn:E; [|done].
    apply Halter. intros ->. unfold phase_of in E. rewrite Ht1 in E; simpl in E.
    split; [done|]. intros Hterm. apply Hsettled in Hterm.
    rewrite Hterm in E. done.
  - destruct (is_researching (phase_of st r')) eqn:E; [|done].
    rewrite research_catch_tasks.
    apply Halter. intros ->. unfold phase_of in E. rewrite Ht1 in E; simpl in E.
    split.
    + simpl. destruct (status (session t1)); simpl; lia.
    + intros Hterm. apply Hsettled in Hterm. rewrite Hterm in E. done.
  - rewrite report_resolved_tasks.
    destruct (phase_of st r') as [[]|] eqn:E; try done.
    apply Halter. intros ->. unfold phase_of in E. rewrite Ht1 in E; simpl in E.
    split.
    + simpl. destruct (status (session t1)); simpl; lia.
    + intros Hterm. apply Hsettled in Hterm. congruence.
  - destruct (is_reporting (phase_of st r')) eqn:E; [|done].
    rewrite research_catch_tasks.
    apply Halter. intros ->. unfold phase_of in E. rewrite Ht1 in E; simpl in E.
    split.
    + simpl. destruct (status (session t1)); simpl; lia.
    + intros Hterm. apply Hsettled in Hterm. rewrite Hterm in E. done.
Qed.

Lemma status_walk_from env st evs r t1 :
  Forall task_ok (tasks st) →
  orderly_from env r st evs = true →
  tasks st !! r = Some t1 →
  ∃ t2, tasks (foldl (step env) st evs) !! r = Some t2 ∧
        rank (status (session t1)) ≤ rank (status (session t2)) ∧
        (terminal (status (session t1)) = true → t2 = t1).
Proof.
  revert st t1. induction evs as [|[now ev] evs IH]; intros st t1 Hok Ho Ht1.
  - simpl. eauto.
  - simpl in Ho. apply andb_true_iff in Ho as [Ha Ho].
    destruct (status_walk_handle env ev (set_clock now st) r t1)
      as (t2 & Ht2 & Hrank & Hterm); [done..|].
    destruct (IH (step env st (now, ev)) t2) as (t3 & Ht3 & Hrank' & Hterm');
      [by apply task_ok_handle|done|done|].
    exists t3. split; [done|]. split; [lia|].
    intros H. specialize (Hterm H). subst t2. by apply Hterm'.
Qed.

(** Once a session is in a terminal state, the callbacks of its task that
    [engine_allows r] admits do nothing at all. *)
Lemma settled_task_silent env ev st r t :
  task_ok t →
  engine_allows r st ev = true →
  tasks st !! r = Some t →
  terminal (status (session t)) = true →
  event_task ev = Some r →
  handle env ev st = st.
Proof.
  intros Hok Hallow Ht Hterm Hev.
  pose proof (terminal_settled t Hok Hterm) as Hsettled.
  destruct ev as [apiKey sid|ws|apiKey body uuid sync|apiKey sid|r' p
                 |r' out|r' message|r' report|r' message];
    simpl in Hev; try done; injection Hev as ->; cbn [handle];
    simpl in Hallow; rewrite ?decide_True in Hallow by done;
    unfold research_resolved, report_resolved, phase_of in *;
    rewrite Ht in *; simpl in *; rewrite Hsettled in *; done.
Qed.

(** ** Status transitions (C6) *)

(** The [onProgress] callback does not look at the status it overwrites. *)
Lemma session_onProgress_status r p st t :
  tasks st !! r = Some t →
  (status <$> session_of (session_onProgress r p st) r) = Some in_progress.
Proof.
  intros Ht. unfold session_of.
  by rewrite session_onProgress_tasks, list_lookup_alter_eq, Ht.
Qed.

(** C6, as stated, fails: the [onProgress] callback assigns
    [session.status = 'in-progress'] without looking at the status.  In
    [failed_run] the session is in the error state and its subscriber has
    been sent the 'error' event; a progress update that arrives afterwards
    moves the session back to in-progress and sends the subscriber a
    'progress' event. *)
Lemma late_progress_leaves_terminal_state :
  (status <$> session_of (run env0 failed_run) 0) = Some error_status ∧
  last (received 0 (run env0 failed_run)) = Some (error_update "boom") ∧
  (status <$> session_of (run env0 (failed_run ++ [late_progress])) 0)
  = Some in_progress ∧
  received 0 (run env0 (failed_run ++ [late_progress]))
  = received 0 (run env0 failed_run) ++ [progress_update (Some progress0)].
Proof. vm_compute. done. Qed.

(** C6 (amended): over every lifetime of a session in which the engine
    reports progress for that session only while its research promise is
    pending, whatever the callbacks of the other sessions do, the status
    of the session walks monotonically through pending, in-progress, then
    completed or error: between any two points of the run its rank does
    not decrease; once the session is in a terminal state it keeps its
    status; and from then on every callback of its task (progress update,
    promise continuation) leaves the server state as it is, so no further
    event is emitted on behalf of that session.  What a subscriber that
    attaches later is replayed is no part of this statement. *)
Theorem status_walk_monotone env evs1 evs2 r s1 :
  orderly env r (evs1 ++ evs2) = true →
  session_of (run env evs1) r = Some s1 →
  ∃ s2, session_of (run env (evs1 ++ evs2)) r = Some s2 ∧
        rank (status s1) ≤ rank (status s2) ∧
        (terminal (status s1) = true →
         status s2 = status s1 ∧
         ∀ pre now ev post,
           evs2 = pre ++ (now, ev) :: post →
           event_task ev = Some r →
           step env (run env (evs1 ++ pre)) (now, ev)
           = set_clock now (run env (evs1 ++ pre))).
Proof.
  intros Ho Hs1. unfold session_of in *.
  destruct (tasks (run env evs1) !! r) as [t1|] eqn:Ht1; [|done].
  injection Hs1 as <-.
  apply orderly_app in Ho as [Ho1 Ho2].
  destruct (status_walk_from env (run env evs1) evs2 r t1)
    as (t2 & Ht2 & Hrank & Hterm); [apply run_task_ok|done..|].
  rewrite run_app, Ht2. simpl. eexists; split; [done|]. split; [done|].
  intros H. split; [by rewrite (Hterm H)|].
  intros pre now ev post -> Hev.
  rewrite orderly_from_app in Ho2. apply andb_true_iff in Ho2 as [Hpre Hev'].
  simpl in Hev'. apply andb_true_iff in Hev' as [Hallow _].
  destruct (status_walk_from env (run env evs1) pre r t1)
    as (t3 & Ht3 & _ & Hterm3); [apply run_task_ok|done..|].
  specialize (Hterm3 H). subst t3. rewrite <- run_app in Ht3, Hallow.
  unfold step. cbn [fst snd].
  apply (settled_task_silent env ev _ r t1); try done.
  eapply run_task_ok_lookup. rewrite <- Ht3. done.
Qed.

(** The first session goes from in-progress to completed while the
    engine reports progress for the second session after its failure. *)
Lemma status_walk_monotone_witness :
  ∃ s2, session_of
          (run env0 (second_session_late ++ first_session_finishing)) 0
        = Some s2 ∧
        rank in_progress ≤ rank (status s2).
Proof.
  edestruct (status_walk_monotone env0 second_session_late
               first_session_finishing 0)
    as (s2 & Hs2 & Hrank & _).
  - vm_compute. reflexivity.
  - vm_compute. reflexivity.
  - exists s2. split; [exact Hs2|exact Hrank].
Defined.

(** ** Results and error against status (C7) *)

(** C7, as stated, fails.  In [failed_run] followed by a late progress
    update the session has an error message and the status in-progress;
    in [completed_run] followed by one it has results and the status
    in-progress. *)
Lemma late_progress_breaks_iff :
  (∃ s, session_of (run env0 (failed_run ++ [late_progress])) 0 = Some s ∧
        is_Some (error s) ∧ status s ≠ error_status) ∧
  (∃ s, session_of (run env0 (completed_run ++ [late_progress])) 0 = Some s ∧
        is_Some (results s) ∧ status s ≠ completed).
Proof.
  split; eexists; (split; [vm_compute; reflexivity|]);
    (split; [by eexists|discriminate]).
Qed.

(** C7 (amended): at every point of every run, a session whose status is
    completed has non-null results, a session whose status is error has a
    non-null error, and no session has both results and an error.  At
    every point of a lifetime in which the engine reports progress for
    that session only while its research promise is pending, whatever
    the callbacks of the other sessions do, the converses hold as well:
    its results are non-null exactly when its status is completed, and
    its error is non-null exactly when its status is error. *)
Theorem results_error_against_status env evs r s :
  session_of (run env evs) r = Some s →
  (status s = completed → is_Some (results s)) ∧
  (status s = error_status → is_Some (error s)) ∧
  ¬ (is_Some (results s) ∧ is_Some (error s)) ∧
  (orderly env r evs = true →
   (is_Some (results s) ↔ status s = completed) ∧
   (is_Some (error s) ↔ status s = error_status)).
Proof.
  intros Hs. unfold session_of in Hs.
  destruct (tasks (run env evs) !! r) as [t|] eqn:Ht; [|done].
  injection Hs as <-.
  pose proof (run_task_ok_lookup env evs r t Ht) as (_ & _ & H).
  assert (phase t ≠ settled →
          results (session t) = None ∧ error (session t) = None ∧
          terminal (status (session t)) = false) as Hpending.
  { intros Hp. by destruct (phase t). }
  assert (phase t = settled ∨ phase t ≠ settled) as [Hp|Hp]
    by (destruct (phase t); auto).
  - rewrite Hp in H.
    destruct H as [(Hr & He & Hs)|(Hr & He & Hs)].
    + rewrite He.
      split; [done|]. split; [destruct Hs; congruence|].
      split; [by intros [_ [? ?]]|].
      intros Ho.
      pose proof (orderly_settled_terminal env evs r t Ho Ht Hp) as Hterm.
      destruct Hs as [Hs|Hs]; rewrite Hs in *; [|done].
      split; split; try done; intros H; by destruct H.
    + rewrite Hr.
      split; [destruct Hs; congruence|]. split; [done|].
      split; [by intros [[? ?] _]|].
      intros Ho.
      pose proof (orderly_settled_terminal env evs r t Ho Ht Hp) as Hterm.
      destruct Hs as [Hs|Hs]; rewrite Hs in *; [|done].
      split; split; try done; intros H; by destruct H.
  - destruct (Hpending Hp) as (-> & -> & Hnt).
    split; [intros H'; by rewrite H' in Hnt|].
    split; [intros H'; by rewrite H' in Hnt|].
    split; [by intros [[? ?] _]|].
    intros _. split; split; intros H'; try by destruct H'.
    all: by rewrite H' in Hnt.
Qed.

(** The first session has completed while the engine reported progress
    for the second session after its failure. *)
Lemma results_error_against_status_witness :
  ∃ s, session_of
         (run env0 (second_session_late ++ first_session_finishing)) 0
       = Some s ∧
       (is_Some (results s) ↔ status s = completed) ∧
       (is_Some (error s) ↔ status s = error_status).
Proof.
  eexists. split.
  - vm_compute. reflexivity.
  - apply (results_error_against_status env0
             (second_session_late ++ first_session_finishing) 0).
    + vm_compute. reflexivity.
    + vm_compute. reflexivity.
Defined.

(** ** Replay on attach (C1, C8) *)

Lemma emitted_app st st' es :
  effects st' = effects st ++ es → emitted st st' = es.
Proof. unfold emitted. intros ->. apply drop_app_length. Qed.

(** An authenticated attach to a registered session sends the new socket
    exactly one event, [initialUpdate] of the session, and nothing else
    leaves the server. *)
Lemma ws_connection_replay env apiKey sid s st :
  authenticateWs env apiKey = true →
  sid ≠ "" →
  sessions_get st sid = Some s →
  effects (ws_connection env apiKey (Some sid) st) =
  effects st ++ [ws_send (length (sockets st)) (initialUpdate s)].
Proof.
  intros Hauth Hsid Hget. unfold ws_connection. rewrite Hauth. simpl.
  rewrite (bool_decide_eq_true_2 _ Hsid). simpl.
  assert (sessions_has st sid = true) as Hhas.
  { unfold sessions_has, sessions_get in *. apply bool_decide_eq_true_2.
    destruct (sessions st !! sid); [by eexists|done]. }
  unfold sessions_has in *. simpl. rewrite Hhas. simpl.
  unfold sessions_get in *. simpl. rewrite Hget. done.
Qed.

Lemma sessions_get_task st sid s :
  sessions_get st sid = Some s →
  ∃ r t, tasks st !! r = Some t ∧ session t = s.
Proof.
  unfold sessions_get. destruct (sessions st !! sid) as [r|]; [|done]. simpl.
  destruct (tasks st !! r) as [t|] eqn:Ht; [|done]. simpl.
  intros [= <-]. eauto.
Qed.

(** C1, as far as the code goes.  After any run, a subscriber that
    attaches to a session receives exactly one replay event.  For a
    completed session it is the 'completed' event with the results.  For a
    session in the error state it is a 'progress' event, with the last
    stored snapshot or, if there is none, the synthesized one, and never
    the 'error' event: [initialUpdate] looks at [results] and [progress]
    only. *)
Theorem replay_of_terminal_session env evs apiKey sid s :
  authenticateWs env apiKey = true →
  sid ≠ "" →
  sessions_get (run env evs) sid = Some s →
  let st := run env evs in
  let replay := emitted st (handle env (WsConnection apiKey (Some sid)) st) in
  (status s = completed →
   ∃ res, results s = Some res ∧
          replay = [ws_send (length (sockets st)) (completed_update res)]) ∧
  (status s = error_status →
   replay = [ws_send (length (sockets st))
               (progress_update
                  (Some (default (initial_progress s) (progress s))))]).
Proof.
  intros Hauth Hsid Hget st replay. subst replay. cbn [handle].
  rewrite (emitted_app _ _ _
             (ws_connection_replay env apiKey sid s st Hauth Hsid Hget)).
  destruct (sessions_get_task _ _ _ Hget) as (r & t & Ht & <-).
  pose proof (run_task_ok_lookup env evs r t Ht) as (_ & _ & H).
  unfold initialUpdate. split; intros Hs.
  - destruct (phase t).
    + destruct H as (_ & _ & Hnt). by rewrite Hs in Hnt.
    + destruct H as (_ & _ & Hnt). by rewrite Hs in Hnt.
    + destruct H as [([res Hres] & _ & _)|(_ & _ & [H|H])]; [|congruence..].
      exists res. by rewrite Hres.
  - destruct (phase t).
    + destruct H as (_ & _ & Hnt). by rewrite Hs in Hnt.
    + destruct H as (_ & _ & Hnt). by rewrite Hs in Hnt.
    + destruct H as [(_ & _ & [H|H])|(Hres & _ & _)]; [congruence..|].
      rewrite Hres. by destruct (progress (session t)).
Qed.

(** A second subscriber attaches to the session of [failed_run]. *)
Lemma replay_of_terminal_session_witness :
  emitted (run env0 failed_run)
          (handle env0 (WsConnection key0 (Some "s1")) (run env0 failed_run))
  = [ws_send 1 (progress_update
                  (Some {| currentDepth := Finite 0; totalDepth := Finite 1;
                           currentBreadth := Finite 0;
                           totalBreadth := Finite 2;
                           currentQuery := None;
                           totalQueries := Finite 0;
                           completedQueries := Finite 0 |}))].
Proof.
  edestruct (replay_of_terminal_session env0 failed_run key0 "s1")
    as [_ Herr].
  - vm_compute. reflexivity.
  - discriminate.
  - vm_compute. reflexivity.
  - rewrite Herr; [|reflexivity]. vm_compute. reflexivity.
Defined.

(** C8: after any run, a subscriber that attaches to a registered
    session receives exactly one replay event.  If no work has started on
    the session (status pending), it is a 'progress' event with the
    synthesized snapshot: [currentDepth], [currentBreadth],
    [completedQueries] and [totalQueries] are zero, there is no current
    query, and the two totals are the depth and breadth of the session.
    If the session is in progress (status in-progress, the promise chain
    of its request not yet settled), it is a 'progress' event with the
    snapshot stored on the session, the last one the engine reported. *)
Theorem replay_of_running_session env evs apiKey sid r t :
  authenticateWs env apiKey = true →
  sid ≠ "" →
  sessions (run env evs) !! sid = Some r →
  tasks (run env evs) !! r = Some t →
  let st := run env evs in
  let s := session t in
  let replay := emitted st (handle env (WsConnection apiKey (Some sid)) st) in
  (status s = pending →
   replay = [ws_send (length (sockets st))
               (progress_update
                  (Some {| currentDepth := Finite 0; totalDepth := depth s;
                           currentBreadth := Finite 0; totalBreadth := breadth s;
                           currentQuery := None;
                           totalQueries := Finite 0;
                           completedQueries := Finite 0 |}))]) ∧
  (status s = in_progress → phase t ≠ settled →
   ∃ p, progress s = Some p ∧
        replay = [ws_send (length (sockets st)) (progress_update (Some p))]).
Proof.
  intros Hauth Hsid Hr Ht st s replay. subst st s replay. cbn [handle].
  assert (sessions_get (run env evs) sid = Some (session t)) as Hget.
  { unfold sessions_get. rewrite Hr. simpl. by rewrite Ht. }
  rewrite (emitted_app _ _ _
             (ws_connection_replay env apiKey sid _ _ Hauth Hsid Hget)).
  pose proof (run_task_ok_lookup env evs r t Ht) as (Hpend & Hprog & H).
  unfold initialUpdate. split.
  - intros Hs. rewrite (Hpend Hs).
    destruct (phase t); try (destruct H as (-> & _ & _); done).
    destruct H as [(_ & _ & [H|H])|(_ & _ & [H|H])]; congruence.
  - intros Hs Hp. destruct (Hprog Hs) as [p Hprogress]. exists p.
    split; [done|]. rewrite Hprogress.
    destruct (phase t); try (destruct H as (-> & _ & _); done).
    by destruct Hp.
Qed.

(** A second subscriber attaches to the session of [started_run]. *)
Lemma replay_of_running_session_witness :
  emitted (run env0 started_run)
          (handle env0 (WsConnection key0 (Some "s1")) (run env0 started_run))
  = [ws_send 1 (progress_update (Some progress0))].
Proof.
  edestruct (replay_of_running_session env0 started_run key0 "s1" 0)
    as [_ Hrun].
  - vm_compute. reflexivity.
  - discriminate.
  - vm_compute. reflexivity.
  - vm_compute. reflexivity.
  - destruct Hrun as (p & Hp & Hreplay); [reflexivity|discriminate|].
    rewrite Hreplay. injection Hp as <-. reflexivity.
Defined.

(** ** Validation at the boundary (C9) *)

Lemma z_number_outside lo hi n :
  outside lo hi n → z_number lo hi (JNumber n) = None.
Proof.
  unfold outside, z_number, num_le, num_of_Z. destruct n as [q| |]; try done.
  intros [H|H].
  - destruct (Qle_bool (inject_Z lo) q) eqn:E; [|done].
    apply Qle_bool_iff in E. by apply Qlt_not_le in H.
  - destruct (Qle_bool q (inject_Z hi)) eqn:E; [|by rewrite andb_false_r].
    apply Qle_bool_iff in E. by apply Qlt_not_le in H.
Qed.

Lemma z_optional_present {A B} (schema : A → option B) (j : A) :
  z_optional schema (Some j) = Some <$> schema j.
Proof. reflexivity. Qed.

Lemma parse_rejects_breadth body n :
  rb_breadth body = Some (JNumber n) → outside 1 10 n →
  startResearchSchema_parse body = None.
Proof.
  intros Hb Hout. unfold startResearchSchema_parse. rewrite Hb.
  rewrite z_optional_present, (z_number_outside 1 10 n Hout).
  by destruct (z_required z_string_min1 (rb_query body)).
Qed.

Lemma parse_rejects_depth body n :
  rb_depth body = Some (JNumber n) → outside 1 5 n →
  startResearchSchema_parse body = None.
Proof.
  intros Hd Hout. unfold startResearchSchema_parse. rewrite Hd.
  rewrite z_optional_present, (z_number_outside 1 5 n Hout).
  destruct (z_required z_string_min1 (rb_query body)); simpl; [|done].
  by destruct (z_optional (z_number 1 10) (rb_breadth body)).
Qed.

(** C9: a create-session request whose breadth is a number outside
    [1,10], or whose depth is a number outside [1,5], is rejected before
    a session exists.  Parsing the body is the first thing the route
    handler does; for such a body it fails, and the request ends there:
    the registry and the session objects are what they were, the
    subscriber map is what it was, [deepResearch] is not called, and the
    request is answered with an error status (500 from the error handler,
    or 401 or 500 when authentication stopped the request even
    earlier). *)
Theorem out_of_range_request_rejected env apiKey body uuid sync st n :
  (rb_breadth body = Some (JNumber n) ∧ outside 1 10 n) ∨
  (rb_depth body = Some (JNumber n) ∧ outside 1 5 n) →
  startResearchSchema_parse body = None ∧
  let st' := handle env (PostResearch apiKey body uuid sync) st in
  sessions st' = sessions st ∧
  tasks st' = tasks st ∧
  progressSubscribers st' = progressSubscribers st ∧
  research_calls st' = research_calls st ∧
  ∃ code response,
    last (effects st') = Some (http_respond code response) ∧
    (code = 500 ∨ code = 401).
Proof.
  intros Hout.
  assert (startResearchSchema_parse body = None) as Hparse.
  { destruct Hout as [[Hb Ho]|[Hd Ho]];
      eauto using parse_rejects_breadth, parse_rejects_depth. }
  split; [done|]. cbn [handle].
  rewrite (post_research_rejected env body uuid sync st Hparse).
  unfold authenticate, research_calls, errorHandler.
  repeat case_match; simplify_eq; simpl; rewrite omap_app, last_app; simpl;
    rewrite app_nil_r; eauto 10.
Qed.

(** A request with breadth 11 arrives after [completed_run]. *)
Lemma out_of_range_request_rejected_witness :
  sessions (handle env0 (PostResearch key0 body_too_broad "s2" [])
                   (run env0 completed_run))
  = sessions (run env0 completed_run) ∧
  tasks (handle env0 (PostResearch key0 body_too_broad "s2" [])
                (run env0 completed_run))
  = tasks (run env0 completed_run).
Proof.
  edestruct (out_of_range_request_rejected env0 key0 body_too_broad "s2" []
               (run env0 completed_run))
    as (_ & Hsessions & Htasks & _).
  - left. split; [reflexivity|]. right. reflexivity.
  - split; [exact Hsessions|exact Htasks].
Defined.

(** ** The two kinds of notes (C3, C4) *)

Lemma length_append (a b : string) :
  String.length (a +:+ b) = String.length a + String.length b.
Proof. induction a as [|c a IH]; simpl; [done|]. by rewrite IH. Qed.

(** Appending a non-empty string changes a string. *)
Lemma append_nonempty_ne (a b : string) : b ≠ "" → a +:+ b ≠ a.
Proof.
  intros Hb Heq. apply (f_equal String.length) in Heq.
  rewrite length_append in Heq. destruct b; [done|]. simpl in Heq. lia.
Qed.

Lemma sync_sends_no_call st sid sync :
  omap (λ e, match e with
             | call_deepResearch _ p => Some p
             | _ => None
             end) (sync_sends st sid sync) = [].
Proof.
  unfold sync_sends. induction sync as [|p sync IH]; [done|].
  rewrite bind_cons, omap_app, IH, app_nil_r.
  generalize (default [] (progressSubscribers st !! sid)).
  intros subs. by induction subs.
Qed.

(** An accepted request makes one call of [deepResearch], with
    [enhancedQuery]. *)
Lemma post_research_accepted env body uuid sync st v :
  startResearchSchema_parse body = Some v →
  research_calls (post_research env body uuid sync st) =
  research_calls st ++ [research_params v].
Proof.
  intros Hparse. unfold research_calls.
  destruct (post_research_accepted_state env body uuid sync st v Hparse)
    as (_ & _ & _ & _ & ->).
  rewrite omap_app. f_equal. simpl.
  by rewrite omap_app, sync_sends_no_call.
Qed.

(** C3, as far as the code goes.  When a create-session request carries
    non-empty [additionalNotes], the query handed to [deepResearch] is not
    the original query: it is the query followed by a blank line, the line
    "Additional Context:" and the notes.  The notes do reach the research
    phase. *)
Theorem additionalNotes_reach_research env apiKey body uuid sync st v notes :
  authenticate env apiKey = None →
  startResearchSchema_parse body = Some v →
  sr_additionalNotes v = Some notes →
  notes ≠ "" →
  ∃ params,
    research_calls (handle env (PostResearch apiKey body uuid sync) st)
    = research_calls st ++ [params] ∧
    dr_query params
    = sr_query v +:+ LF +:+ LF +:+ "Additional Context:" +:+ LF +:+ notes ∧
    dr_query params ≠ sr_query v.
Proof.
  intros Hauth Hparse Hnotes Hne. cbn [handle]. rewrite Hauth.
  rewrite (post_research_accepted env body uuid sync st v Hparse).
  eexists. split; [done|]. simpl.
  unfold enhance. rewrite Hnotes. simpl.
  rewrite (bool_decide_eq_true_2 _ Hne). split; [done|].
  apply append_nonempty_ne. done.
Qed.

Lemma additionalNotes_reach_research_witness :
  ∃ params,
    research_calls
      (handle env0
         (PostResearch key0 body_with_additionalNotes "s1" [progress0])
         initial_state)
    = [params] ∧
    dr_query params
    = "quantum computing" +:+ LF +:+ LF +:+ "Additional Context:" +:+ LF
      +:+ "Use bullet points." ∧
    dr_query params ≠ "quantum computing".
Proof.
  apply (additionalNotes_reach_research env0 key0 body_with_additionalNotes
           "s1" [progress0] initial_state
           {| sr_query := "quantum computing";
              sr_breadth := None; sr_depth := None;
              sr_additionalNotes := Some "Use bullet points.";
              sr_mainPromptNotes := None; sr_model := None;
              sr_concurrency := None; sr_followUpQuestions := None |}
           "Use bullet points.").
  - reflexivity.
  - reflexivity.
  - reflexivity.
  - discriminate.
Defined.

(** The schema reads [mainPromptNotes] last and keeps it apart: with or
    without the notes a body is rejected or accepted alike, and the
    parameters of the research are the same. *)
Lemma parse_mainPromptNotes body notes :
  (startResearchSchema_parse (with_mainPromptNotes (Some (JString notes)) body)
   = None ∧
   startResearchSchema_parse (with_mainPromptNotes None body) = None) ∨
  ∃ v1 v2,
    startResearchSchema_parse (with_mainPromptNotes (Some (JString notes)) body)
    = Some v1 ∧
    startResearchSchema_parse (with_mainPromptNotes None body) = Some v2 ∧
    research_params v1 = research_params v2.
Proof.
  unfold startResearchSchema_parse, research_params. simpl.
  destruct (z_required z_string_min1 (rb_query body)); simpl; [|by left].
  destruct (z_optional (z_number 1 10) (rb_breadth body)); simpl; [|by left].
  destruct (z_optional (z_number 1 5) (rb_depth body)); simpl; [|by left].
  destruct (z_optional z_string (rb_additionalNotes body)); simpl; [|by left].
  destruct (z_optional z_model (rb_model body)); simpl; [|by left].
  destruct (z_optional (z_number 1 10) (rb_concurrency body)); simpl;
    [|by left].
  destruct (z_optional (z_number 1 10) (rb_followUpQuestions body)); simpl;
    [|by left].
  right. eauto.
Qed.

(** C4, as far as the code goes.  Whatever string a create-session
    request supplies as [mainPromptNotes], the server does what it does
    for the same request without the key: the same call of
    [deepResearch], with the same query, and the same response; and the
    prompt kept for the report is the same.  The notes are not folded
    into the research query. *)
Theorem mainPromptNotes_not_folded env apiKey body uuid sync st notes :
  let supplied :=
    handle env
      (PostResearch apiKey (with_mainPromptNotes (Some (JString notes)) body)
         uuid sync)
      st in
  let absent :=
    handle env
      (PostResearch apiKey (with_mainPromptNotes None body) uuid sync) st in
  effects supplied = effects absent ∧
  research_calls supplied = research_calls absent ∧
  (enhancedQuery <$> tasks supplied) = (enhancedQuery <$> tasks absent).
Proof.
  intros supplied absent. subst supplied absent. cbn [handle].
  destruct (authenticate env apiKey); [done|].
  destruct (parse_mainPromptNotes body notes)
    as [[H1 H2]|(v1 & v2 & H1 & H2 & Hparams)].
  { by rewrite !post_research_rejected by done. }
  unfold research_calls.
  destruct (post_research_accepted_state env _ uuid sync st v1 H1)
    as (-> & _ & _ & _ & ->).
  destruct (post_research_accepted_state env _ uuid sync st v2 H2)
    as (-> & _ & _ & _ & ->).
  destruct (synced_status sync (clock st) (new_task v1 uuid (clock st)))
    as (-> & _).
  destruct (synced_status sync (clock st) (new_task v2 uuid (clock st)))
    as (-> & _).
  destruct (synced_fields sync (clock st) (new_task v1 uuid (clock st)))
    as (_ & Hq1 & _).
  destruct (synced_fields sync (clock st) (new_task v2 uuid (clock st)))
    as (_ & Hq2 & _).
  rewrite Hparams. split; [done|]. split; [done|].
  rewrite !fmap_app. simpl. rewrite Hq1, Hq2. simpl.
  by injection Hparams as ->.
Qed.

(** With the sample request: the notes end up on the session object, and
    the research query is the plain query. *)
Lemma mainPromptNotes_sample :
  (mainPromptNotes <$>
     session_of
       (handle env0
          (PostResearch key0
             (with_mainPromptNotes (Some (JString "Focus on hardware.")) body0)
             "s1" [])
          initial_state) 0)
  = Some (Some "Focus on hardware.") ∧
  (dr_query <$>
     research_calls
       (handle env0
          (PostResearch key0
             (with_mainPromptNotes (Some (JString "Focus on hardware.")) body0)
             "s1" [])
          initial_state))
  = ["quantum computing"].
Proof. vm_compute. done. Qed.

(** ** Rejected attaches (C5) *)

(** C5, as stated, fails: an attach with an unknown session id and an
    attach with a wrong API key are closed with the same code. *)
Lemma unknown_session_and_bad_key_same_code :
  ∃ code,
    effects (handle env0 (WsConnection key0 (Some "no-such-session"))
                    initial_state)
    = [ws_close 0 code "Invalid session ID"] ∧
    effects (handle env0 (WsConnection (Some "wrong") (Some "no-such-session"))
                    initial_state)
    = [ws_close 0 code "Invalid API key"].
Proof. exists 1008. vm_compute. done. Qed.

(** C5 (amended): a live-channel attach that fails authentication, and an
    authenticated attach whose session id is missing, empty or not in the
    registry, are both closed at once with close code 1008; they differ in
    the reason text, "Invalid API key" against "Invalid session ID".  In
    neither case is the socket subscribed to anything. *)
Theorem rejected_attach_closes_1008 env apiKey sessionId st :
  authenticateWs env apiKey = false ∨
  sessionId = None ∨ sessionId = Some "" ∨
  (∃ sid, sessionId = Some sid ∧ sessions st !! sid = None) →
  let st' := handle env (WsConnection apiKey sessionId) st in
  progressSubscribers st' = progressSubscribers st ∧
  emitted st st' =
  [ws_close (length (sockets st)) 1008
     (if authenticateWs env apiKey then "Invalid session ID"
      else "Invalid API key")].
Proof.
  intros H st'. subst st'. cbn [handle]. unfold ws_connection.
  destruct (authenticateWs env apiKey); simpl;
    [|split; [done|by apply emitted_app]].
  destruct H as [H|[->|[->|(sid & -> & Hsid)]]];
    [done|split; [done|by apply emitted_app]..|].
  unfold sessions_has. simpl. rewrite Hsid.
  rewrite (bool_decide_eq_false_2 (is_Some None)); [|by intros [? ?]].
  rewrite orb_true_r. split; [done|by apply emitted_app].
Qed.

(** After [completed_run], with the right key and a session id that is
    not registered. *)
Lemma rejected_attach_closes_1008_witness :
  emitted (run env0 completed_run)
          (handle env0 (WsConnection key0 (Some "no-such-session"))
                  (run env0 completed_run))
  = [ws_close 1 1008 "Invalid session ID"].
Proof.
  apply (rejected_attach_closes_1008 env0 key0 (Some "no-such-session")
           (run env0 completed_run)).
  right. right. right. exists "no-such-session". split; [reflexivity|].
  vm_compute. reflexivity.
Defined.

(** ** Failure of the report (C2) *)

(** C2, as stated, fails: in [report_failed_run] the research resolves
    with a finding and a visited URL, the report is rejected, and the
    session ends in the error state with [results] still [null]; the
    polling endpoint answers without results and the subscriber is sent an
    'error' event that carries the message only. *)
Lemma report_failure_loses_findings :
  out_learnings out0 = ["finding"] ∧
  (status <$> session_of (run env0 report_failed_run) 0) = Some error_status ∧
  (results <$> session_of (run env0 report_failed_run) 0) = Some None ∧
  last (effects (handle env0 (GetResearch key0 "s1") (run env0 report_failed_run)))
  = Some (http_respond 200
            (status_body "s1" error_status (Some progress0) None
               (Some "model unavailable"))) ∧
  last (received 0 (run env0 report_failed_run))
  = Some (error_update "model unavailable").
Proof. vm_compute. done. Qed.

(** C2 (amended): if report synthesis fails after the research phase has
    succeeded, the session goes to the error state with the message of
    the failure, every subscriber of the session is sent one 'error'
    event with that message, and [results] stays [null]: what the
    research found is not kept on the session. *)
Theorem report_failure_is_session_error env evs now r out message t :
  tasks (run env evs) !! r = Some t →
  phase t = reporting out →
  let st := run env evs in
  let st' := step env st (now, ReportRejected r message) in
  ∃ s, session_of st' r = Some s ∧
       status s = error_status ∧
       error s = Some message ∧
       results s = None ∧
       emitted st st' =
       (λ ws, ws_send ws (error_update message))
         <$> default [] (progressSubscribers st !! sessionId t).
Proof.
  intros Ht Hphase st st'. subst st st'. unfold step. cbn [handle fst snd].
  unfold phase_of. simpl. rewrite Ht. simpl. rewrite Hphase. simpl.
  pose proof (run_task_ok_lookup env evs r t Ht) as (_ & _ & H).
  rewrite Hphase in H. destruct H as (Hres & _ & _).
  unfold session_of. rewrite research_catch_tasks. simpl.
  rewrite list_lookup_alter_eq, Ht. simpl.
  eexists. split; [done|]. simpl. split; [done|]. split; [done|].
  split; [done|].
  apply emitted_app. unfold research_catch. simpl. rewrite Ht.
  by rewrite broadcast_effects.
Qed.

Lemma report_failure_is_session_error_witness :
  ∃ s, session_of (run env0 report_failed_run) 0 = Some s ∧
       status s = error_status ∧
       error s = Some "model unavailable" ∧
       results s = None ∧
       emitted (run env0 reporting_run) (run env0 report_failed_run)
       = [ws_send 0 (error_update "model unavailable")].
Proof.
  unfold report_failed_run. rewrite run_snoc.
  edestruct (report_failure_is_session_error env0 reporting_run 5%Z 0 out0
               "model unavailable")
    as (s & Hs & Hstatus & Herror & Hresults & Hemitted).
  - vm_compute. reflexivity.
  - reflexivity.
  - exists s. split; [exact Hs|]. split; [exact Hstatus|].
    split; [exact Herror|]. split; [exact Hresults|].
    rewrite Hemitted. vm_compute. reflexivity.
Defined.

(** ** Output before the first snapshot

    The [onOutput] callback reads [session.progress] as it is.  Were the
    [log] method of a task's output manager called while the session is
    still pending, no snapshot would have been stored, and the callback
    would send every subscriber of the session a 'progress' event whose
    [data] is [null].  The server never calls [log]: the output manager
    is local to the route handler, which calls [updateProgress] only. *)
Lemma onOutput_before_progress env evs r t args :
  tasks (run env evs) !! r = Some t →
  status (session t) = pending →
  let st := run env evs in
  emitted st (log (output r) args st) =
  (λ ws, ws_send ws (progress_update None))
    <$> default [] (progressSubscribers st !! sessionId t).
Proof.
  intros Ht Hpending st. subst st. apply emitted_app.
  rewrite log_output. unfold session_onOutput. rewrite Ht.
  pose proof (run_task_ok_lookup env evs r t Ht) as (Hp & _ & _).
  rewrite (Hp Hpending). by rewrite broadcast_effects.
Qed.

(** * Further properties of the server *)

(** ** What each callback emits *)

Lemma handle_frame env ev st :
  (∀ k s, ev ≠ WsConnection k s) → (∀ ws, ev ≠ WsClose ws) →
  progressSubscribers (handle env ev st) = progressSubscribers st ∧
  sockets (handle env ev st) = sockets st.
Proof.
  intros Hc Hx.
  destruct ev as [apiKey sid|ws|apiKey body uuid sync|apiKey sid|r p
                 |r out|r message|r report|r message];
    [by destruct (Hc apiKey sid)|by destruct (Hx ws)|..]; cbn [handle];
    rewrite ?updateProgress_output.
  2-7: unfold get_route, get_research, errorHandler, session_onProgress,
         research_resolved, report_resolved, research_catch, broadcast;
       repeat case_match; done.
  destruct (authenticate env apiKey); [done|].
  destruct (startResearchSchema_parse body) as [v|] eqn:Hparse;
    [|by rewrite post_research_rejected by done].
  by destruct (post_research_accepted_state env body uuid sync st v Hparse)
    as (_ & _ & -> & -> & _).
Qed.

Lemma sent_to_app ws es1 es2 :
  sent_to ws (es1 ++ es2) = sent_to ws es1 ++ sent_to ws es2.
Proof. apply omap_app. Qed.

Lemma received_emitted ws st st' es :
  effects st' = effects st ++ es →
  received ws st' = received ws st ++ sent_to ws es.
Proof. unfold received. intros ->. apply omap_app. Qed.

Lemma sent_to_cons_send ws w u es :
  sent_to ws (ws_send w u :: es) =
  if decide (w = ws) then u :: sent_to ws es else sent_to ws es.
Proof. unfold sent_to. simpl. by destruct (decide (w = ws)). Qed.

(** The sends of a fan-out, seen from one socket: the update once if the
    socket is in the set, nothing otherwise. *)
Lemma sent_to_fmap ws u (subs : list nat) :
  NoDup subs →
  sent_to ws ((λ w, ws_send w u) <$> subs) = if decide (ws ∈ subs) then [u] else [].
Proof.
  induction 1 as [|w subs Hw Hnd IH]; [done|].
  rewrite fmap_cons, sent_to_cons_send, IH. clear IH.
  destruct (decide (w = ws)) as [->|Hne].
  - rewrite (decide_True (P := ws ∈ ws :: subs)) by left.
    by rewrite decide_False.
  - destruct (decide (ws ∈ subs)) as [Hin|Hin].
    + by rewrite (decide_True (P := ws ∈ w :: subs)) by (by right).
    + rewrite (decide_False (P := ws ∈ w :: subs)); [done|].
      intros [?|?]%elem_of_cons; congruence.
Qed.

Lemma sent_to_none ws es :
  (∀ u, ws_send ws u ∉ es) → sent_to ws es = [].
Proof.
  induction es as [|e es IH]; [done|]. intros H.
  assert (sent_to ws es = []) as Hes
    by (apply IH; intros u Hu; apply (H u); by right).
  destruct e as [w u| | | | | |]; try exact Hes.
  rewrite sent_to_cons_send, Hes.
  destruct (decide (w = ws)) as [->|]; [|done].
  destruct (H u). by left.
Qed.

(** What the engine's first snapshots send, and to whom. *)
Lemma elem_of_sync_sends st sid sync e :
  e ∈ sync_sends st sid sync ↔
  ∃ p w, e = ws_send w (progress_update (Some p)) ∧ p ∈ sync ∧
         w ∈ default [] (progressSubscribers st !! sid).
Proof.
  unfold sync_sends. rewrite list_elem_of_bind. split.
  - intros (p & He & Hp). apply list_elem_of_fmap in He as (w & -> & Hw).
    eauto.
  - intros (p & w & -> & Hp & Hw). exists p. split; [|done].
    apply list_elem_of_fmap. eauto.
Qed.

(** Every callback appends to the effect log, and what it appends has one
    of a few shapes.  An attach emits one effect for the new socket (or
    the two of the dead [catch] block); a request to start a research
    sends what the engine's first snapshots send and nothing else, a
    poll sends nothing; a callback of a task emits nothing, a call of
    [writeFinalReport], or one fan-out to the subscribers of its
    session. *)
Lemma handle_emitted env ev st :
  ∃ es, effects (handle env ev st) = effects st ++ es ∧
  match ev with
  | WsConnection apiKey sid =>
      (∃ s u, sid = Some s ∧ sessions_get st s = Some u ∧
              authenticateWs env apiKey = true ∧
              es = [ws_send (length (sockets st)) (initialUpdate u)])
      ∨ ∀ w u, ws_send w u ∉ es
  | WsClose _ => es = []
  | PostResearch _ _ uuid sync =>
      ∀ w u, ws_send w u ∈ es → ws_send w u ∈ sync_sends st uuid sync
  | GetResearch _ _ | ResearchResolved _ _ =>
      ∀ w u, ws_send w u ∉ es
  | EngineProgress r p => es = fanout st r (progress_update (Some p))
  | ResearchRejected r message | ReportRejected r message =>
      es = [] ∨ es = fanout st r (error_update message)
  | ReportResolved r report =>
      es = [] ∨
      ∃ out, phase_of st r = Some (reporting out) ∧
             es = fanout st r
                    (completed_update {| learnings := out_learnings out;
                                         visitedUrls := out_visitedUrls out;
                                         report := Some report |})
  end.
Proof.
  destruct ev as [apiKey sid|ws|apiKey body uuid sync|apiKey sid|r p
                 |r out|r message|r report|r message]; cbn [handle].
  - unfold ws_connection.
    destruct (authenticateWs env apiKey) eqn:Hauth; simpl.
    2:{ eexists. split; [done|]. right. intros w u [?|?]%elem_of_cons;
          [done|by apply elem_of_nil in H]. }
    destruct sid as [s|]; simpl.
    2:{ eexists. split; [done|]. right. intros w u [?|?]%elem_of_cons;
          [done|by apply elem_of_nil in H]. }
    destruct (negb (bool_decide (s ≠ "")) || negb (sessions_has _ s)); simpl.
    { eexists. split; [done|]. right. intros w u [?|?]%elem_of_cons;
        [done|by apply elem_of_nil in H]. }
    unfold sessions_get. simpl.
    destruct (sessions st !! s ≫= λ r, session <$> tasks st !! r) as [u|] eqn:E;
      simpl.
    + eexists. split; [done|]. left. eauto 10.
    + eexists. split; [done|]. right. intros w u Hin.
      repeat (apply elem_of_cons in Hin as [?|Hin]; [done|]).
      by apply elem_of_nil in Hin.
  - exists []. rewrite app_nil_r. split; [|done].
    unfold ws_on_close. repeat case_match; done.
  - destruct (authenticate env apiKey) as [response|] eqn:Hauth.
    + eexists. split; [done|]. intros w u Hin.
      unfold authenticate in Hauth. repeat case_match; simplify_eq;
        repeat (apply elem_of_cons in Hin as [?|Hin]; [done|]);
        by apply elem_of_nil in Hin.
    + destruct (startResearchSchema_parse body) as [v|] eqn:Hparse.
      * destruct (post_research_accepted_state env body uuid sync st v Hparse)
          as (_ & _ & _ & _ & Heffects).
        eexists. split; [exact Heffects|]. intros w u Hin.
        apply elem_of_cons in Hin as [?|Hin]; [done|].
        apply elem_of_app in Hin as [Hin|Hin]; [done|].
        by apply list_elem_of_singleton in Hin.
      * rewrite post_research_rejected by done. unfold errorHandler.
        eexists. split; [done|]. intros w u Hin.
        repeat (apply elem_of_cons in Hin as [?|Hin]; [done|]).
        by apply elem_of_nil in Hin.
  - destruct (authenticate env apiKey) as [response|] eqn:Hauth.
    + eexists. split; [done|]. intros w u Hin.
      unfold authenticate in Hauth. repeat case_match; simplify_eq;
        repeat (apply elem_of_cons in Hin as [?|Hin]; [done|]);
        by apply elem_of_nil in Hin.
    + unfold get_route, get_research. repeat case_match; simpl;
        (eexists; split; [done|]); intros w u Hin;
        repeat (apply elem_of_cons in Hin as [?|Hin]; [done|]);
        by apply elem_of_nil in Hin.
  - rewrite updateProgress_output. unfold session_onProgress, fanout.
    destruct (tasks st !! r) as [t|]; [|exists []; by rewrite app_nil_r].
    rewrite broadcast_effects. simpl. eauto.
  - unfold research_resolved. repeat case_match; simpl;
      try (exists []; rewrite app_nil_r; split; [done|];
           intros w u Hin; by apply elem_of_nil in Hin).
    eexists. split; [done|]. intros w u Hin.
    repeat (apply elem_of_cons in Hin as [?|Hin]; [done|]).
    by apply elem_of_nil in Hin.
  - destruct (is_researching _); [|exists []; rewrite app_nil_r; auto].
    unfold research_catch, fanout.
    destruct (tasks st !! r) as [t|]; [|exists []; rewrite app_nil_r; auto].
    rewrite broadcast_effects. simpl. eauto.
  - unfold report_resolved, fanout, phase_of.
    destruct (tasks st !! r) as [t|]; simpl;
      [|exists []; rewrite app_nil_r; auto].
    destruct (phase t) as [|out|]; try (exists []; rewrite app_nil_r; by auto).
    rewrite broadcast_effects. simpl. eexists. split; [done|]. right. eauto.
  - destruct (is_reporting _); [|exists []; rewrite app_nil_r; auto].
    unfold research_catch, fanout.
    destruct (tasks st !! r) as [t|]; [|exists []; rewrite app_nil_r; auto].
    rewrite broadcast_effects. simpl. eauto.
Qed.

(** ** What no callback changes *)

Lemma handle_sessions env ev st :
  (∀ k b u sy, ev ≠ PostResearch k b u sy) →
  sessions (handle env ev st) = sessions st.
Proof.
  intros Hp.
  destruct ev as [apiKey sid|ws|apiKey body uuid sync|apiKey sid|r p
                 |r out|r message|r report|r message]; cbn [handle].
  - apply ws_connection_sessions.
  - apply ws_on_close_sessions.
  - by destruct (Hp apiKey body uuid sync).
  - destruct (authenticate env apiKey); [done|]. apply get_route_sessions.
  - by rewrite updateProgress_output, session_onProgress_sessions.
  - apply research_resolved_sessions.
  - case_match; [|done]. apply research_catch_sessions.
  - apply report_resolved_sessions.
  - case_match; [|done]. apply research_catch_sessions.
Qed.

Lemma keeps_refl t : keeps t t.
Proof. by repeat split. Qed.

Lemma keeps_trans t1 t2 t3 : keeps t1 t2 → keeps t2 t3 → keeps t1 t3.
Proof.
  intros (H1 & H2 & H3 & H4) (H1' & H2' & H3' & H4').
  repeat split; [congruence|auto..].
Qed.

Lemma keeps_synced sync now t : keeps t (synced sync now t).
Proof.
  induction sync as [|p sync IH] using rev_ind; [apply keeps_refl|].
  rewrite synced_snoc. eapply keeps_trans; [exact IH|].
  repeat split; simpl; eauto.
Qed.

Lemma keeps_handle env ev st r t1 :
  tasks st !! r = Some t1 →
  ∃ t2, tasks (handle env ev st) !! r = Some t2 ∧ keeps t1 t2.
Proof.
  intros Ht1.
  assert (∀ (f : Task → Task) r', keeps t1 (f t1) →
          ∃ t2, alter f r' (tasks st) !! r = Some t2 ∧ keeps t1 t2) as Halter.
  { intros f r' Hf. rewrite list_lookup_alter. case_decide as Heq.
    - subst r'. rewrite Ht1. simpl. eauto.
    - rewrite Ht1. eauto using keeps_refl. }
  assert (∃ t2, tasks st !! r = Some t2 ∧ keeps t1 t2) as Hsame
    by eauto using keeps_refl.
  destruct ev as [apiKey sid|ws|apiKey body uuid sync|apiKey sid|r' p
                 |r' out|r' message|r' report|r' message]; cbn [handle].
  - by rewrite ws_connection_tasks.
  - by rewrite ws_on_close_tasks.
  - destruct (authenticate env apiKey); [done|].
    destruct (post_research_tasks env body uuid sync st)
      as [->|(t & -> & _)]; [done|].
    exists t1. split; [by apply lookup_app_l_Some|apply keeps_refl].
  - destruct (authenticate env apiKey); [done|]. by rewrite get_route_tasks.
  - rewrite updateProgress_output, session_onProgress_tasks.
    apply Halter. repeat split; simpl; eauto.
  - rewrite research_resolved_tasks. case_match; [|done].
    apply Halter. by repeat split.
  - case_match; [|done]. rewrite research_catch_tasks.
    apply Halter. repeat split; simpl; eauto.
  - rewrite report_resolved_tasks. repeat case_match; try done.
    apply Halter. repeat split; simpl; eauto.
  - case_match; [|done]. rewrite research_catch_tasks.
    apply Halter. repeat split; simpl; eauto.
Qed.

Lemma keeps_from env st evs r t1 :
  tasks st !! r = Some t1 →
  ∃ t2, tasks (foldl (step env) st evs) !! r = Some t2 ∧ keeps t1 t2.
Proof.
  revert st t1. induction evs as [|[now ev] evs IH]; intros st t1 Ht1; simpl.
  - eauto using keeps_refl.
  - destruct (keeps_handle env ev (set_clock now st) r t1 Ht1)
      as (t2 & Ht2 & H12).
    destruct (IH (step env st (now, ev)) t2 Ht2) as (t3 & Ht3 & H23).
    eauto using keeps_trans.
Qed.

(** ** The registry *)

Lemma registry_linked_handle env ev st :
  registry_ok st → registry_linked st → registry_linked (handle env ev st).
Proof.
  intros Hok Hlinked sid r Hsid.
  assert (sessions st !! sid = Some r →
          ∃ t, tasks (handle env ev st) !! r = Some t ∧
               sessionId t = sid ∧ id (session t) = sid) as Hold.
  { intros H. destruct (Hlinked sid r H) as (t & Ht & Hs & Hi).
    destruct (keeps_handle env ev st r t Ht) as (t2 & Ht2 & Hfix & _).
    exists t2. split; [done|]. unfold fixed_part in Hfix.
    injection Hfix as Hid _ _ _ _ _ _ Hsid' _ _. split; congruence. }
  destruct ev as [apiKey s|ws|apiKey body uuid sync|apiKey s|r' p
                 |r' out|r' message|r' report|r' message];
    try (rewrite handle_sessions in Hsid by done; by apply Hold).
  cbn [handle] in *. destruct (authenticate env apiKey); [by apply Hold|].
  destruct (startResearchSchema_parse body) as [v|] eqn:Hparse;
    [|rewrite post_research_rejected in * by done; by apply Hold].
  destruct (post_research_accepted_state env body uuid sync st v Hparse)
    as (Htasks & Hsessions & _).
  rewrite Htasks. rewrite Hsessions in Hsid.
  rewrite lookup_insert in Hsid. case_decide as Heq.
  - injection Hsid as <-. subst sid.
    eexists. split; [by apply list_lookup_middle|].
    by destruct (synced_fields sync (clock st) (new_task v uuid (clock st)))
      as (-> & _ & _ & _ & -> & _).
  - destruct (Hlinked sid r Hsid) as (t & Ht & Hs & Hi).
    exists t. split; [by apply lookup_app_l_Some|done].
Qed.

Lemma run_registry_linked env evs : registry_linked (run env evs).
Proof.
  assert (registry_ok (run env evs) ∧ registry_linked (run env evs)) as [_ H];
    [|exact H].
  apply (run_invariant env (λ st, registry_ok st ∧ registry_linked st)).
  - split; intros sid r H; simpl in H; by rewrite lookup_empty in H.
  - intros st [now ev] [H1 H2]. split.
    + by apply registry_ok_handle.
    + by apply registry_linked_handle.
Qed.

(** ** Subscribers and sockets *)

Lemma subscribers_inv_snoc_None m l :
  subscribers_inv m l → subscribers_inv m (l ++ [None]).
Proof.
  intros [H1 H2]. split.
  - intros sid subs Hs. destruct (H1 sid subs Hs) as (Hne & Hnd & Hin).
    split; [done|]. split; [done|].
    intros ws Hws. apply lookup_app_l_Some. by apply Hin.
  - intros ws sid Hws. apply lookup_snoc_Some in Hws as [[_ Hws]|[_ ?]];
      [by apply H2|done].
Qed.

Lemma subscribers_inv_fresh m l sid subs :
  subscribers_inv m l → m !! sid = Some subs → length l ∉ subs.
Proof.
  intros [H1 _] Hs Hin. destruct (H1 sid subs Hs) as (_ & _ & Hall).
  apply Hall, lookup_lt_Some in Hin. lia.
Qed.

Lemma subscribers_inv_attach m l sid :
  subscribers_inv m l →
  subscribers_inv
    (<[sid := Set_add (length l) (default [] (m !! sid))]> m)
    (<[length l := Some sid]> (l ++ [None])).
Proof.
  intros Hinv. pose proof Hinv as [H1 H2].
  assert (<[length l := Some sid]> (l ++ [None]) = l ++ [Some sid]) as ->.
  { replace (length l) with (length l + 0) at 1 by lia.
    by rewrite insert_app_r. }
  assert (Set_add (length l) (default [] (m !! sid))
          = default [] (m !! sid) ++ [length l]) as ->.
  { unfold Set_add. rewrite decide_False; [done|].
    destruct (m !! sid) as [subs|] eqn:E; simpl.
    - by eapply subscribers_inv_fresh.
    - by intros ?%elem_of_nil. }
  split.
  - intros sid' subs'. rewrite lookup_insert. case_decide as Heq.
    + subst sid'. intros [= <-]. split; [by destruct (default [] (m !! sid))|].
      split.
      * apply NoDup_app. split; [|split].
        -- destruct (m !! sid) as [subs|] eqn:E; simpl; [|constructor].
           by destruct (H1 sid subs E) as (_ & ? & _).
        -- intros w Hw Hw'. apply list_elem_of_singleton in Hw' as ->.
           destruct (m !! sid) as [subs|] eqn:E; simpl in Hw.
           ++ by eapply subscribers_inv_fresh.
           ++ by apply elem_of_nil in Hw.
        -- apply NoDup_singleton.
      * intros w [Hw|Hw]%elem_of_app;
          [|apply list_elem_of_singleton in Hw as ->].
        -- apply lookup_app_l_Some.
           destruct (m !! sid) as [subs|] eqn:E; simpl in Hw.
           ++ destruct (H1 sid subs E) as (_ & _ & Hall). by apply Hall.
           ++ by apply elem_of_nil in Hw.
        -- by apply list_lookup_middle.
    + intros Hs. destruct (H1 sid' subs' Hs) as (Hne & Hnd & Hall).
      split; [done|]. split; [done|].
      intros w Hw. apply lookup_app_l_Some. by apply Hall.
  - intros w sid' Hw. apply lookup_snoc_Some in Hw as [[_ Hw]|[-> [= <-]]].
    + destruct (H2 w sid' Hw) as (subs & Hs & Hin).
      rewrite lookup_insert. case_decide as Heq.
      * subst sid'. eexists. split; [done|]. rewrite Hs. simpl.
        apply elem_of_app. by left.
      * eauto.
    + rewrite lookup_insert_eq. eexists. split; [done|].
      apply elem_of_app. right. by apply list_elem_of_singleton.
Qed.

Lemma subscribers_inv_close m l ws sid subs :
  subscribers_inv m l →
  l !! ws = Some (Some sid) →
  m !! sid = Some subs →
  subscribers_inv
    (if decide (length (Set_delete ws subs) = 0)
     then delete sid m else <[sid := Set_delete ws subs]> m)
    (<[ws := None]> l).
Proof.
  intros [H1 H2] Hws Hsubs.
  assert (∀ w sid', l !! w = Some (Some sid') → w ≠ ws →
          <[ws := None]> l !! w = Some (Some sid')) as Hkeep.
  { intros w sid' Hw Hne. by rewrite list_lookup_insert_ne. }
  assert (∀ sid' subs', sid' ≠ sid → m !! sid' = Some subs' → ws ∉ subs')
    as Hother.
  { intros sid' subs' Hne Hs Hin.
    destruct (H1 sid' subs' Hs) as (_ & _ & Hall).
    apply Hall in Hin. congruence. }
  destruct (H1 sid subs Hsubs) as (_ & Hnd & Hall).
  split.
  - intros sid' subs' Hs.
    assert (sid' ≠ sid ∧ m !! sid' = Some subs' ∨
            sid' = sid ∧ subs' = Set_delete ws subs ∧
            length (Set_delete ws subs) ≠ 0) as [[Hne Hs']|(-> & -> & Hlen)].
    { case_decide as Hlen.
      - apply lookup_delete_Some in Hs. left. naive_solver.
      - rewrite lookup_insert in Hs. case_decide; simplify_eq; auto. }
    + destruct (H1 sid' subs' Hs') as (Hne' & Hnd' & Hall').
      split; [done|]. split; [done|]. intros w Hw.
      apply Hkeep; [by apply Hall'|]. intros ->. by eapply Hother.
    + split; [by destruct (Set_delete ws subs)|].
      split; [by apply NoDup_filter|].
      intros w [Hne Hw]%list_elem_of_filter. apply Hkeep; [by apply Hall|done].
  - intros w sid' Hw.
    assert (w ≠ ws) as Hne.
    { intros ->. rewrite list_lookup_insert_eq in Hw; [done|].
      by eapply lookup_lt_Some. }
    rewrite list_lookup_insert_ne in Hw by done.
    destruct (H2 w sid' Hw) as (subs' & Hs' & Hin).
    destruct (decide (sid' = sid)) as [->|Hsid].
    + assert (subs' = subs) as -> by congruence.
      assert (w ∈ Set_delete ws subs) as Hin'
        by (by apply list_elem_of_filter).
      rewrite decide_False.
      * rewrite lookup_insert_eq. eauto.
      * intros Hlen. destruct (Set_delete ws subs); [|done].
        by apply elem_of_nil in Hin'.
    + exists subs'. split; [|done]. case_decide.
      * by rewrite lookup_delete_ne.
      * by rewrite lookup_insert_ne.
Qed.

Lemma subscribers_ok_handle env ev st :
  registry_ok st → subscribers_ok st → subscribers_ok (handle env ev st).
Proof.
  intros Hreg Hok.
  change (subscribers_inv (progressSubscribers st) (sockets st)) in Hok.
  change (subscribers_inv (progressSubscribers (handle env ev st))
                          (sockets (handle env ev st))).
  destruct ev as [apiKey sid|ws|apiKey body uuid sync|apiKey sid|r p
                 |r out|r message|r report|r message];
    try (match goal with
         | |- context [handle env ?e st] =>
             destruct (handle_frame env e st) as [-> ->]; done
         end).
  - cbn [handle]. unfold ws_connection.
    destruct (authenticateWs env apiKey); simpl;
      [|by apply subscribers_inv_snoc_None].
    destruct sid as [s|]; simpl; [|by apply subscribers_inv_snoc_None].
    destruct (bool_decide (s ≠ "")); simpl;
      [|by apply subscribers_inv_snoc_None].
    unfold sessions_has. simpl.
    destruct (sessions st !! s) as [r|] eqn:Hs; simpl.
    2:{ by apply subscribers_inv_snoc_None. }
    unfold sessions_get. simpl. rewrite Hs. simpl.
    apply Hreg in Hs. apply lookup_lt_is_Some_2 in Hs as [t Ht].
    rewrite Ht. simpl. by apply subscribers_inv_attach.
  - cbn [handle]. unfold ws_on_close.
    destruct (sockets st !! ws) as [[sid|]|] eqn:Hws; try done. simpl.
    destruct Hok as [H1 H2]. destruct (H2 ws sid Hws) as (subs & Hsubs & Hin).
    rewrite Hsubs. simpl. by apply subscribers_inv_close.
Qed.

Lemma run_subscribers_ok env evs : subscribers_ok (run env evs).
Proof.
  assert (registry_ok (run env evs) ∧ subscribers_ok (run env evs)) as [_ H];
    [|exact H].
  apply (run_invariant env (λ st, registry_ok st ∧ subscribers_ok st)).
  - split; [intros sid r H; simpl in H; by rewrite lookup_empty in H|].
    split.
    + intros sid subs H. simpl in H. by rewrite lookup_empty in H.
    + intros ws sid H. done.
  - intros st [now ev] [H1 H2]. split.
    + by apply registry_ok_handle.
    + by apply subscribers_ok_handle.
Qed.

(** ** Authentication (X1, X2) *)

(** [authenticate] calls [next()] exactly when [authenticateWs] answers
    [true]. *)
Lemma authenticate_passes_iff env apiKey :
  authenticate env apiKey = None ↔ authenticateWs env apiKey = true.
Proof.
  unfold authenticate, authenticateWs, truthy.
  destruct (API_KEY env) as [expected|]; destruct apiKey as [k|]; simpl;
    repeat case_bool_decide; simpl; split; try done; congruence.
Qed.

(** X1: the REST middleware lets a request through exactly when the
    live-channel check accepts the same key, and both do so exactly when
    [API_KEY] is set to a non-empty string and the request carries that
    very string.  An unset or empty [API_KEY] therefore locks everybody
    out, and an empty key never passes. *)
Theorem authentication_agrees env apiKey :
  (authenticate env apiKey = None ↔ authenticateWs env apiKey = true) ∧
  (authenticateWs env apiKey = true ↔
   ∃ k, k ≠ "" ∧ apiKey = Some k ∧ API_KEY env = Some k).
Proof.
  unfold authenticate, authenticateWs, truthy.
  destruct (API_KEY env) as [expected|]; destruct apiKey as [k|]; simpl;
    repeat case_bool_decide; simpl; split; split;
    try done; try congruence;
    try (intros (k' & Hk' & Heq1 & Heq2); congruence).
  intros _. exists k. split; [done|]. split; congruence.
Qed.

(** X2: a request or an attach whose key does not pass changes nothing:
    the registry, the session objects and the subscriber map stay as they
    are, and the only effect is the refusal: close code 1008 for an
    attach, and for a REST request 401, or 500 with a console message
    when [API_KEY] is not configured. *)
Theorem unauthenticated_changes_nothing env apiKey ev st :
  authenticateWs env apiKey = false →
  (∃ body uuid sync, ev = PostResearch apiKey body uuid sync) ∨
  (∃ sid, ev = GetResearch apiKey sid) ∨
  (∃ sid, ev = WsConnection apiKey sid) →
  let st' := handle env ev st in
  sessions st' = sessions st ∧
  tasks st' = tasks st ∧
  progressSubscribers st' = progressSubscribers st ∧
  emitted st st' =
  match ev with
  | WsConnection _ _ => [ws_close (length (sockets st)) 1008 "Invalid API key"]
  | _ =>
      if truthy (API_KEY env)
      then [http_respond 401 (error_body "Invalid API key")]
      else [console_error;
            http_respond 500 (error_body "Server configuration error")]
  end.
Proof.
  intros Hws Hev st'. subst st'.
  assert (authenticate env apiKey =
          Some (if truthy (API_KEY env)
                then [http_respond 401 (error_body "Invalid API key")]
                else [console_error;
                      http_respond 500
                        (error_body "Server configuration error")])) as Hrest.
  { destruct (authenticate env apiKey) eqn:E.
    - unfold authenticate in E. by repeat case_match; simplify_eq.
    - apply authenticate_passes_iff in E. congruence. }
  destruct Hev as [(body & uuid & sync & ->)|[(sid & ->)|(sid & ->)]];
    cbn [handle].
  - rewrite Hrest. repeat split; try done. by apply emitted_app.
  - rewrite Hrest. repeat split; try done. by apply emitted_app.
  - unfold ws_connection. rewrite Hws. simpl.
    repeat split; try done. by apply emitted_app.
Qed.

Lemma unauthenticated_changes_nothing_witness :
  tasks (handle env0 (PostResearch (Some "guess") body0 "s9" [progress0])
                (run env0 started_run))
  = tasks (run env0 started_run) ∧
  emitted (run env0 started_run)
          (handle env0 (PostResearch (Some "guess") body0 "s9" [progress0])
                  (run env0 started_run))
  = [http_respond 401 (error_body "Invalid API key")].
Proof.
  edestruct (unauthenticated_changes_nothing env0 (Some "guess")
               (PostResearch (Some "guess") body0 "s9" [progress0])
               (run env0 started_run))
    as (_ & Htasks & _ & Hemitted).
  - reflexivity.
  - left. eexists _, _, _. reflexivity.
  - split; [exact Htasks|exact Hemitted].
Defined.

(** ** Where session objects come from *)

Lemma handle_tasks_length_eq env ev st :
  (∀ k b u sy, ev ≠ PostResearch k b u sy) →
  length (tasks (handle env ev st)) = length (tasks st).
Proof.
  intros Hp.
  destruct ev as [apiKey sid|ws|apiKey body uuid sync|apiKey sid|r p
                 |r out|r message|r report|r message]; cbn [handle].
  - by rewrite ws_connection_tasks.
  - by rewrite ws_on_close_tasks.
  - by destruct (Hp apiKey body uuid sync).
  - destruct (authenticate env apiKey); [done|]. by rewrite get_route_tasks.
  - by rewrite updateProgress_output, session_onProgress_tasks, length_alter.
  - rewrite research_resolved_tasks. case_match; by rewrite ?length_alter.
  - case_match; [|done]. by rewrite research_catch_tasks, length_alter.
  - rewrite report_resolved_tasks. repeat case_match; by rewrite ?length_alter.
  - case_match; [|done]. by rewrite research_catch_tasks, length_alter.
Qed.

(** A session object that is there after a callback was there before, or
    was created by it from an accepted request. *)
Lemma task_origin env ev st i t2 :
  tasks (handle env ev st) !! i = Some t2 →
  (∃ t1, tasks st !! i = Some t1 ∧ keeps t1 t2) ∨
  (∃ k body uuid sync v,
     ev = PostResearch k body uuid sync ∧ authenticate env k = None ∧
     startResearchSchema_parse body = Some v ∧
     i = length (tasks st) ∧
     t2 = synced sync (clock st) (new_task v uuid (clock st))).
Proof.
  intros Hi.
  destruct (tasks st !! i) as [t1|] eqn:Ht1.
  { left. destruct (keeps_handle env ev st i t1 Ht1) as (t2' & Ht2' & Hk).
    exists t1. split; [done|]. congruence. }
  right. apply lookup_ge_None in Ht1.
  assert (∃ k body uuid sync, ev = PostResearch k body uuid sync)
    as (k & body & uuid & sync & ->).
  { destruct ev; eauto;
      apply lookup_lt_Some in Hi; rewrite handle_tasks_length_eq in Hi by done;
      lia. }
  cbn [handle] in Hi.
  destruct (authenticate env k) eqn:Hauth.
  { apply lookup_lt_Some in Hi. simpl in Hi. lia. }
  destruct (startResearchSchema_parse body) as [v|] eqn:Hparse.
  - destruct (post_research_accepted_state env body uuid sync st v Hparse)
      as (Htasks & _).
    rewrite Htasks in Hi. apply lookup_snoc_Some in Hi as [[Hi _]|[-> <-]];
      [lia|]. eauto 10.
  - rewrite post_research_rejected in Hi by done.
    apply lookup_lt_Some in Hi. simpl in Hi. lia.
Qed.

(** A property of session objects that holds of every object an accepted
    request creates and that callbacks keep holds of every object after
    every run. *)
Lemma run_tasks_invariant env (P : Task → Prop) :
  (∀ body v uuid now,
     startResearchSchema_parse body = Some v → P (new_task v uuid now)) →
  (∀ t1 t2, keeps t1 t2 → P t1 → P t2) →
  ∀ evs r t, tasks (run env evs) !! r = Some t → P t.
Proof.
  intros Hnew Hkeeps evs.
  apply (run_invariant env (λ st, ∀ r t, tasks st !! r = Some t → P t)).
  - intros r t H. simpl in H. by rewrite lookup_nil in H.
  - intros st [now ev] IH r t Ht. unfold step in Ht.
    apply task_origin in Ht
      as [(t1 & Ht1 & Hk)|(k & body & uuid & sync & v & _ & _ & Hparse & _ & ->)].
    + eapply Hkeeps; [exact Hk|]. eapply IH. exact Ht1.
    + eapply Hkeeps; [apply keeps_synced|]. eapply Hnew. exact Hparse.
Qed.

(** ** Validation (X3, X4, X5, X6) *)

Lemma z_number_within lo hi j n :
  z_number lo hi j = Some n → within lo hi n.
Proof.
  unfold z_number, num_le, num_of_Z.
  destruct j as [| |n'|s|]; try done. destruct n' as [q| |]; simpl; try done.
  destruct (Qle_bool (inject_Z lo) q) eqn:E1; [|done].
  destruct (Qle_bool q (inject_Z hi)) eqn:E2; [|done]. simpl.
  intros [= <-]. exists q. split; [done|].
  split; by apply Qle_bool_iff.
Qed.

Lemma z_optional_number_within lo hi field n :
  z_optional (z_number lo hi) field = Some (Some n) → within lo hi n.
Proof.
  destruct field as [j|]; simpl; [|done].
  destruct (z_number lo hi j) eqn:E; simpl; [|done].
  intros [= <-]. by eapply z_number_within.
Qed.

Lemma z_string_min1_nonempty field q :
  z_required z_string_min1 field = Some q → q ≠ "".
Proof.
  destruct field as [[| | |s|]|]; simpl; try done.
  destruct s; simpl; [done|]. by intros [= <-].
Qed.

Lemma parse_in_bounds body v :
  startResearchSchema_parse body = Some v → request_in_bounds v.
Proof.
  unfold startResearchSchema_parse. intros H.
  destruct (z_required z_string_min1 (rb_query body)) as [q|] eqn:Hq;
    simpl in H; [|done].
  destruct (z_optional (z_number 1 10) (rb_breadth body)) as [b|] eqn:Hb;
    simpl in H; [|done].
  destruct (z_optional (z_number 1 5) (rb_depth body)) as [d|] eqn:Hd;
    simpl in H; [|done].
  destruct (z_optional z_string (rb_additionalNotes body)) as [an|];
    simpl in H; [|done].
  destruct (z_optional z_string (rb_mainPromptNotes body)) as [mn|];
    simpl in H; [|done].
  destruct (z_optional z_model (rb_model body)) as [m|] eqn:Hm;
    simpl in H; [|done].
  destruct (z_optional (z_number 1 10) (rb_concurrency body)) as [c|] eqn:Hc;
    simpl in H; [|done].
  destruct (z_optional (z_number 1 10) (rb_followUpQuestions body))
    as [f|] eqn:Hf; simpl in H; [|done].
  injection H as <-. unfold request_in_bounds. simpl.
  split; [by eapply z_string_min1_nonempty|].
  split; [intros n ->; by eapply z_optional_number_within|].
  split; [intros n ->; by eapply z_optional_number_within|].
  split; [intros n ->; by eapply z_optional_number_within|].
  split; [intros n ->; by eapply z_optional_number_within|].
  intros mc n -> Hn.
  destruct (rb_model body) as [[mb|j]|]; simpl in Hm; try done.
  destruct (z_optional z_string (mb_name mb)); simpl in Hm; [|done].
  destruct (z_optional z_url (mb_endpoint mb)); simpl in Hm; [|done].
  destruct (z_optional (z_number 1000 1000000) (mb_contextSize mb))
    as [cs|] eqn:Hcs; simpl in Hm; [|done].
  injection Hm as <-. simpl in Hn. subst cs.
  by eapply z_optional_number_within.
Qed.

(** X3: what [startResearchSchema] lets through is within the documented
    bounds: the query is not empty, breadth, concurrency and the number
    of follow-up questions, when given, are finite numbers from 1 to 10,
    depth from 1 to 5, and the context size of the model from 1000 to
    1000000. *)
Theorem accepted_request_in_bounds body v :
  startResearchSchema_parse body = Some v →
  sr_query v ≠ "" ∧
  (∀ n, sr_breadth v = Some n → within 1 10 n) ∧
  (∀ n, sr_depth v = Some n → within 1 5 n) ∧
  (∀ n, sr_concurrency v = Some n → within 1 10 n) ∧
  (∀ n, sr_followUpQuestions v = Some n → within 1 10 n) ∧
  (∀ m n, sr_model v = Some m → contextSize m = Some n →
          within 1000 1000000 n).
Proof. intros H. by apply (parse_in_bounds body v). Qed.

Lemma accepted_request_in_bounds_witness :
  within 1 10 (num_of_Z 2) ∧ within 1 5 (num_of_Z 1).
Proof.
  edestruct (accepted_request_in_bounds body0) as (_ & Hb & Hd & _).
  - reflexivity.
  - split; [by apply Hb|by apply Hd].
Defined.

(** X4: a create-session request whose [query] key is missing, is the
    empty string, or is not a string is rejected before a session exists:
    the registry, the session objects and the subscriber map are what
    they were and [deepResearch] is not called. *)
Theorem request_without_query_rejected env apiKey body uuid sync st :
  rb_query body = None ∨ rb_query body = Some (JString "") ∨
  (∃ j, rb_query body = Some j ∧ ∀ s, j ≠ JString s) →
  startResearchSchema_parse body = None ∧
  let st' := handle env (PostResearch apiKey body uuid sync) st in
  sessions st' = sessions st ∧
  tasks st' = tasks st ∧
  progressSubscribers st' = progressSubscribers st ∧
  research_calls st' = research_calls st.
Proof.
  intros Hq.
  assert (startResearchSchema_parse body = None) as Hparse.
  { unfold startResearchSchema_parse.
    destruct Hq as [->|[->|(j & -> & Hj)]]; try done.
    destruct j as [| | |s|]; try done. by destruct (Hj s). }
  split; [done|]. cbn [handle].
  rewrite (post_research_rejected env body uuid sync st Hparse).
  unfold authenticate, research_calls, errorHandler.
  repeat case_match; simplify_eq; simpl; rewrite omap_app; simpl;
    by rewrite app_nil_r.
Qed.

Lemma request_without_query_rejected_witness :
  tasks (handle env0 (PostResearch key0 (body_of_query "") "s9" [progress0])
                (run env0 started_run))
  = tasks (run env0 started_run).
Proof.
  edestruct (request_without_query_rejected env0 key0 (body_of_query "") "s9"
               [progress0] (run env0 started_run))
    as (_ & _ & Htasks & _).
  - right. left. reflexivity.
  - exact Htasks.
Defined.

(** X5: an authenticated request that carries a non-empty query and
    nothing else is accepted with the defaults: the session is registered
    under the new id with breadth 4 and depth 2, without results or
    error; [deepResearch] is called once with the query as it is, breadth
    4, depth 2 and no model, concurrency or follow-up count of its own;
    and the response is 200 with the id and the status the session object
    has when the call has returned.  If the engine reported nothing while
    it was being called, that status is pending and the session has no
    snapshot; otherwise it is in-progress, the session holds the last
    snapshot reported, and each snapshot was sent to the subscribers the
    id had, before the response. *)
Theorem defaults_applied env apiKey q uuid sync st :
  authenticate env apiKey = None →
  q ≠ "" →
  let st' := handle env (PostResearch apiKey (body_of_query q) uuid sync) st in
  let live := match sync with [] => pending | _ => in_progress end in
  sessions_get st' uuid
  = Some {| id := uuid; status := live; query := q;
            breadth := Finite 4; depth := Finite 2;
            additionalNotes := None; mainPromptNotes := None;
            progress := last sync; results := None; error := None;
            createdAt := clock st; updatedAt := clock st |} ∧
  emitted st st'
  = call_deepResearch (length (tasks st))
      {| dr_query := q; dr_breadth := Finite 4; dr_depth := Finite 2;
         dr_model := None; dr_concurrency := None;
         dr_followUpQuestions := None |}
    :: sync_sends st uuid sync
    ++ [http_respond 200 (started_body uuid live)].
Proof.
  intros Hauth Hq st' live. subst st' live. cbn [handle]. rewrite Hauth.
  assert (startResearchSchema_parse (body_of_query q)
          = Some {| sr_query := q; sr_breadth := None; sr_depth := None;
                    sr_additionalNotes := None; sr_mainPromptNotes := None;
                    sr_model := None; sr_concurrency := None;
                    sr_followUpQuestions := None |}) as Hparse.
  { unfold startResearchSchema_parse. simpl. destruct q; [done|]. done. }
  destruct (post_research_accepted_state env _ uuid sync st _ Hparse)
    as (Htasks & Hsessions & _ & _ & Heffects).
  set (t := synced sync (clock st) _) in *.
  assert (status (session t)
          = match sync with [] => pending | _ => in_progress end ∧
          session t
          = {| id := uuid;
               status := match sync with [] => pending | _ => in_progress end;
               query := q; breadth := Finite 4; depth := Finite 2;
               additionalNotes := None; mainPromptNotes := None;
               progress := last sync; results := None; error := None;
               createdAt := clock st; updatedAt := clock st |})
    as [Hstatus Hsession].
  { subst t. clear.
    induction sync as [|p sync IH] using rev_ind; [done|].
    rewrite synced_snoc, last_snoc. simpl. destruct IH as [_ ->]. simpl.
    by destruct sync. }
  split.
  - unfold sessions_get. rewrite Hsessions, lookup_insert_eq. simpl.
    rewrite Htasks, list_lookup_middle by done. simpl. by rewrite Hsession.
  - apply emitted_app. by rewrite Heffects, Hstatus.
Qed.

(** A second request arrives while the first session runs; the engine
    reports a snapshot at once, and the response says in-progress. *)
Lemma defaults_applied_witness :
  emitted (run env0 started_run)
          (handle env0
             (PostResearch key0 (body_of_query "protein folding") "s2"
                [progress1])
             (run env0 started_run))
  = [call_deepResearch 1
       {| dr_query := "protein folding";
          dr_breadth := Finite 4; dr_depth := Finite 2;
          dr_model := None; dr_concurrency := None;
          dr_followUpQuestions := None |};
     http_respond 200 (started_body "s2" in_progress)].
Proof.
  edestruct (defaults_applied env0 key0 "protein folding" "s2" [progress1]
               (run env0 started_run))
    as (_ & Hemitted).
  - reflexivity.
  - discriminate.
  - rewrite Hemitted. vm_compute. reflexivity.
Defined.

(** X6: after every run, every session object has a non-empty query, a
    breadth that is a finite number from 1 to 10 and a depth that is a
    finite number from 1 to 5, whether the request gave them or the
    defaults were taken. *)
Theorem sessions_within_bounds env evs r t :
  tasks (run env evs) !! r = Some t →
  query (session t) ≠ "" ∧
  within 1 10 (breadth (session t)) ∧
  within 1 5 (depth (session t)).
Proof.
  apply (run_tasks_invariant env task_in_bounds).
  - intros body v uuid now Hparse.
    destruct (parse_in_bounds body v Hparse) as (Hq & Hb & Hd & _).
    unfold task_in_bounds. simpl. split; [done|]. split.
    + destruct (sr_breadth v) as [n|]; simpl; [by apply Hb|].
      exists (inject_Z 4). split; [done|]. split; by apply Qle_bool_iff.
    + destruct (sr_depth v) as [n|]; simpl; [by apply Hd|].
      exists (inject_Z 2). split; [done|]. split; by apply Qle_bool_iff.
  - intros t1 t2 (Hfix & _) (Hq & Hb & Hd). unfold fixed_part in Hfix.
    injection Hfix as _ Hq' Hb' Hd' _ _ _ _ _ _.
    unfold task_in_bounds. by rewrite Hq', Hb', Hd'.
Qed.

Lemma sessions_within_bounds_witness :
  within 1 10 (num_of_Z 2) ∧ within 1 5 (num_of_Z 1).
Proof.
  edestruct (sessions_within_bounds env0 completed_run 0) as (_ & Hb & Hd).
  - vm_compute. reflexivity.
  - split; [exact Hb|exact Hd].
Defined.

(** ** Polling (X7, X8) *)

(** X7: after any run, polling a registered session with a valid key is
    answered 200 with the id that was asked for and with the status,
    snapshot, results and error of the session object the registry holds
    for that id; the object's own [id] is that id. *)
Theorem poll_answers_for_the_session_asked env evs apiKey sid r :
  authenticate env apiKey = None →
  sid ≠ "" →
  sessions (run env evs) !! sid = Some r →
  let st := run env evs in
  ∃ s, session_of st r = Some s ∧ id s = sid ∧
       emitted st (handle env (GetResearch apiKey sid) st)
       = [http_respond 200
            (status_body sid (status s) (progress s) (results s) (error s))].
Proof.
  intros Hauth Hsid Hr st. subst st.
  destruct (run_registry_linked env evs sid r Hr) as (t & Ht & _ & Hid).
  exists (session t). unfold session_of. rewrite Ht. split; [done|].
  split; [done|]. apply emitted_app. cbn [handle]. rewrite Hauth.
  rewrite get_route_nonempty by done.
  unfold get_research. simpl. rewrite (bool_decide_eq_true_2 _ Hsid). simpl.
  unfold sessions_get. rewrite Hr. simpl. rewrite Ht. simpl. by rewrite Hid.
Qed.

Lemma poll_answers_for_the_session_asked_witness :
  emitted (run env0 completed_run)
          (handle env0 (GetResearch key0 "s1") (run env0 completed_run))
  = [http_respond 200
       (status_body "s1" completed (Some progress0)
          (Some {| learnings := ["finding"]; visitedUrls := ["http://a"];
                   report := Some "the report" |})
          None)].
Proof.
  edestruct (poll_answers_for_the_session_asked env0 completed_run key0 "s1" 0)
    as (s & Hs & _ & Hemitted).
  - reflexivity.
  - discriminate.
  - vm_compute. reflexivity.
  - rewrite Hemitted. revert Hs. vm_compute. intros [= <-]. reflexivity.
Defined.

(** X8: polling never changes the server: the registry, the session
    objects, the subscriber map and the sockets are what they were,
    whatever the key and the id.  With a valid key an id that is not
    registered is answered 404.  No poll is answered 400: the handler's
    check for a missing id never succeeds, since the route hands it a
    non-empty id only. *)
Theorem poll_is_read_only env apiKey sid st :
  let st' := handle env (GetResearch apiKey sid) st in
  (sessions st' = sessions st ∧ tasks st' = tasks st ∧
   progressSubscribers st' = progressSubscribers st ∧
   sockets st' = sockets st) ∧
  (authenticate env apiKey = None → sid ≠ "" → sessions st !! sid = None →
   emitted st st' = [http_respond 404 (error_body "Session not found")]) ∧
  (∀ body, http_respond 400 body ∉ emitted st st').
Proof.
  intros st'. subst st'. split; [|split].
  - destruct (handle_frame env (GetResearch apiKey sid) st) as [-> ->];
      [done..|].
    rewrite handle_sessions by done. cbn [handle].
    destruct (authenticate env apiKey); [done|].
    by rewrite get_route_tasks.
  - intros Hauth Hsid Hnone. apply emitted_app. cbn [handle]. rewrite Hauth.
    rewrite get_route_nonempty by done.
    unfold get_research. simpl. rewrite (bool_decide_eq_true_2 _ Hsid). simpl.
    unfold sessions_get. by rewrite Hnone.
  - intros body. cbn [handle].
    destruct (authenticate env apiKey) as [response|] eqn:Hauth.
    + rewrite (emitted_app st _ response) by done. intros Hin.
      unfold authenticate in Hauth. repeat case_match; simplify_eq;
        repeat (apply elem_of_cons in Hin as [?|Hin]; [done|]);
        by apply elem_of_nil in Hin.
    + unfold get_route, get_research. case_bool_decide as Hsid.
      * erewrite emitted_app by done. by intros ?%list_elem_of_singleton.
      * simpl. rewrite (bool_decide_eq_true_2 _ Hsid). simpl.
        case_match; (erewrite emitted_app by done);
          by intros ?%list_elem_of_singleton.
Qed.

Lemma poll_is_read_only_witness :
  emitted (run env0 completed_run)
          (handle env0 (GetResearch key0 "s7") (run env0 completed_run))
  = [http_respond 404 (error_body "Session not found")].
Proof.
  apply (poll_is_read_only env0 key0 "s7" (run env0 completed_run)).
  - reflexivity.
  - discriminate.
  - vm_compute. reflexivity.
Defined.

(** ** The live channel (X9, X10, X11) *)

(** X9: after every run the subscriber map and the sockets agree.  No
    entry of the map is an empty set (the ['close'] listener deletes the
    entry with the last subscriber), no set lists a socket twice, every
    socket in the set of a session id has its ['close'] listener pending
    for that id, and every socket with a pending listener is in the set
    of its id.  So a socket is subscribed to at most one session. *)
Theorem subscriber_map_consistent env evs :
  let st := run env evs in
  (∀ sid subs, progressSubscribers st !! sid = Some subs →
     subs ≠ [] ∧ NoDup subs ∧
     ∀ ws, ws ∈ subs → sockets st !! ws = Some (Some sid)) ∧
  (∀ ws sid, sockets st !! ws = Some (Some sid) →
     ∃ subs, progressSubscribers st !! sid = Some subs ∧ ws ∈ subs) ∧
  (∀ ws sid1 sid2 subs1 subs2,
     progressSubscribers st !! sid1 = Some subs1 → ws ∈ subs1 →
     progressSubscribers st !! sid2 = Some subs2 → ws ∈ subs2 →
     sid1 = sid2).
Proof.
  intros st. subst st. destruct (run_subscribers_ok env evs) as [H1 H2].
  split; [exact H1|]. split; [exact H2|].
  intros ws sid1 sid2 subs1 subs2 Hs1 Hin1 Hs2 Hin2.
  destruct (H1 sid1 subs1 Hs1) as (_ & _ & Hall1).
  destruct (H1 sid2 subs2 Hs2) as (_ & _ & Hall2).
  apply Hall1 in Hin1. apply Hall2 in Hin2. congruence.
Qed.

(** A socket without a pending listener stays so and is sent nothing. *)
Lemma idle_socket_handle env ev st ws :
  subscribers_ok st →
  sockets st !! ws = Some None →
  sockets (handle env ev st) !! ws = Some None ∧
  received ws (handle env ev st) = received ws st.
Proof.
  intros [H1 H2] Hws.
  assert (ws < length (sockets st)) as Hlt by (by eapply lookup_lt_Some).
  assert (∀ r u, sent_to ws (fanout st r u) = []) as Hfan.
  { intros r u. apply sent_to_none. intros u' Hin. unfold fanout in Hin.
    destruct (tasks st !! r) as [t|]; [|by apply elem_of_nil in Hin].
    apply list_elem_of_fmap in Hin as (w & [= <- <-] & Hw).
    destruct (progressSubscribers st !! sessionId t) as [subs|] eqn:E;
      simpl in Hw; [|by apply elem_of_nil in Hw].
    destruct (H1 _ _ E) as (_ & _ & Hall). apply Hall in Hw. congruence. }
  split.
  - destruct ev as [apiKey sid|ws'|apiKey body uuid sync|apiKey sid|r p
                   |r out|r message|r report|r message];
      try (match goal with
           | |- context [handle env ?e st] =>
               destruct (handle_frame env e st) as [_ ->]; done
           end); cbn [handle].
    + unfold ws_connection. repeat case_match; simpl;
        rewrite ?list_lookup_insert_ne by lia;
        by apply lookup_app_l_Some.
    + unfold ws_on_close. repeat case_match; simpl; try done;
        (destruct (decide (ws' = ws)) as [->|Hne];
         [by rewrite list_lookup_insert_eq
         |by rewrite list_lookup_insert_ne]).
  - destruct (handle_emitted env ev st) as (es & Hes & Hshape).
    rewrite (received_emitted ws st _ es Hes).
    assert (sent_to ws es = []) as ->; [|by rewrite app_nil_r].
    destruct ev as [apiKey sid|ws'|apiKey body uuid sync|apiKey sid|r p
                   |r out|r message|r report|r message].
    + destruct Hshape as [(s & u & _ & _ & _ & ->)|Hno].
      * unfold sent_to. simpl. rewrite decide_False by lia. done.
      * apply sent_to_none. intros u. apply Hno.
    + by subst es.
    + apply sent_to_none. intros u Hin. apply Hshape in Hin.
      apply elem_of_sync_sends in Hin as (p & w & [= <- _] & _ & Hw).
      destruct (progressSubscribers st !! uuid) as [subs|] eqn:E;
        simpl in Hw; [|by apply elem_of_nil in Hw].
      destruct (H1 _ _ E) as (_ & _ & Hall). apply Hall in Hw. congruence.
    + apply sent_to_none. intros u. apply Hshape.
    + subst es. apply Hfan.
    + apply sent_to_none. intros u. apply Hshape.
    + destruct Hshape as [->| ->]; [done|apply Hfan].
    + destruct Hshape as [->|(out & _ & ->)]; [done|apply Hfan].
    + destruct Hshape as [->| ->]; [done|apply Hfan].
Qed.

Lemma idle_socket_from env st evs ws :
  registry_ok st → subscribers_ok st →
  sockets st !! ws = Some None →
  received ws (foldl (step env) st evs) = received ws st.
Proof.
  revert st. induction evs as [|[now ev] evs IH]; intros st Hreg Hok Hws;
    [done|]. simpl.
  destruct (idle_socket_handle env ev (set_clock now st) ws Hok Hws)
    as [Hws' Hrec].
  rewrite IH; [exact Hrec|..|exact Hws'].
  - by apply registry_ok_handle.
  - by apply subscribers_ok_handle.
Qed.

(** X10: once a socket has emitted ['close'], it is never sent anything
    again, whatever happens afterwards: its ['close'] listener took it out
    of the subscriber set, and socket identities are not reused.  The same
    holds for a socket that was refused at attach. *)
Theorem closed_socket_receives_nothing env evs1 now ws evs2 :
  ws < length (sockets (run env evs1)) →
  received ws (run env (evs1 ++ (now, WsClose ws) :: evs2))
  = received ws (run env evs1).
Proof.
  intros Hlt. rewrite run_app. simpl.
  pose proof (run_registry_ok env evs1) as Hreg.
  pose proof (run_subscribers_ok env evs1) as Hok.
  set (st := run env evs1) in *.
  assert (sockets (step env st (now, WsClose ws)) !! ws = Some None ∧
          received ws (step env st (now, WsClose ws)) = received ws st)
    as [Hws Hrec].
  { unfold step. cbn [handle fst snd]. unfold ws_on_close. simpl.
    apply lookup_lt_is_Some_2 in Hlt as [[sid|] Hsock]; rewrite Hsock.
    - simpl. destruct Hok as [H1 H2].
      destruct (H2 ws sid Hsock) as (subs & Hsubs & _). rewrite Hsubs.
      simpl. split; [|done]. apply list_lookup_insert_eq.
      by eapply lookup_lt_Some.
    - done. }
  rewrite idle_socket_from; [exact Hrec|..|exact Hws].
  - by apply (registry_ok_handle env (WsClose ws) (set_clock now st)).
  - by apply (subscribers_ok_handle env (WsClose ws) (set_clock now st)).
Qed.

Lemma closed_socket_receives_nothing_witness :
  received 0 (run env0 (pending_run ++ (3%Z, WsClose 0) ::
                          [(4%Z, EngineProgress 0 progress0);
                           (5%Z, ResearchRejected 0 "boom")]))
  = received 0 (run env0 pending_run).
Proof.
  apply (closed_socket_receives_nothing env0 pending_run 3%Z 0).
  vm_compute. lia.
Defined.

(** X11: no cross-delivery.  A callback of a task (progress update,
    promise continuation) sends nothing to a socket that is
    subscribed to another session id than the task's. *)
Theorem no_cross_delivery env evs now ev r t ws sid :
  event_task ev = Some r →
  tasks (run env evs) !! r = Some t →
  sockets (run env evs) !! ws = Some (Some sid) →
  sid ≠ sessionId t →
  received ws (step env (run env evs) (now, ev)) = received ws (run env evs).
Proof.
  intros Hev Ht Hws Hne.
  destruct (run_subscribers_ok env evs) as [H1 _].
  set (st := run env evs) in *. unfold step. cbn [fst snd].
  destruct (handle_emitted env ev (set_clock now st)) as (es & Hes & Hshape).
  rewrite (received_emitted ws (set_clock now st) _ es Hes).
  assert (sent_to ws es = []) as ->;
    [|rewrite app_nil_r; reflexivity].
  assert (∀ u, sent_to ws (fanout (set_clock now st) r u) = []) as Hfan.
  { intros u. apply sent_to_none. intros u' Hin. unfold fanout in Hin.
    simpl in Hin. rewrite Ht in Hin.
    apply list_elem_of_fmap in Hin as (w & [= <- <-] & Hw).
    destruct (progressSubscribers st !! sessionId t) as [subs|] eqn:E;
      simpl in Hw; [|by apply elem_of_nil in Hw].
    destruct (H1 _ _ E) as (_ & _ & Hall). apply Hall in Hw. congruence. }
  destruct ev as [apiKey s|ws'|apiKey body uuid sync|apiKey s|r' p
                 |r' out|r' message|r' report|r' message];
    simpl in Hev; try done; injection Hev as ->.
  - subst es. apply Hfan.
  - apply sent_to_none. intros u. apply Hshape.
  - destruct Hshape as [->| ->]; [done|apply Hfan].
  - destruct Hshape as [->|(out & _ & ->)]; [done|apply Hfan].
  - destruct Hshape as [->| ->]; [done|apply Hfan].
Qed.

Lemma no_cross_delivery_witness :
  received 0 (step env0 (run env0 two_sessions_run)
                (6%Z, EngineProgress 1 progress1))
  = received 0 (run env0 two_sessions_run).
Proof.
  eapply (no_cross_delivery env0 two_sessions_run 6%Z
            (EngineProgress 1 progress1) 1 _ 0 "s1").
  - reflexivity.
  - vm_compute. reflexivity.
  - vm_compute. reflexivity.
  - discriminate.
Defined.

(** ** Progress and completion (X12, X13) *)

(** A fan-out reaches every subscriber of the task's session once. *)
Lemma sent_to_fanout st r t u ws :
  subscribers_ok st →
  tasks st !! r = Some t →
  sockets st !! ws = Some (Some (sessionId t)) →
  sent_to ws (fanout st r u) = [u].
Proof.
  intros [H1 H2] Ht Hws. unfold fanout. rewrite Ht.
  destruct (H2 _ _ Hws) as (subs & Hsubs & Hin). rewrite Hsubs. simpl.
  destruct (H1 _ _ Hsubs) as (_ & Hnd & _).
  rewrite sent_to_fmap by done. by rewrite decide_True.
Qed.

(** A progress update reaches every subscriber of the session once. *)
Lemma progress_pushed env evs now r t p ws :
  tasks (run env evs) !! r = Some t →
  sockets (run env evs) !! ws = Some (Some (sessionId t)) →
  received ws (step env (run env evs) (now, EngineProgress r p))
  = received ws (run env evs) ++ [progress_update (Some p)].
Proof.
  intros Ht Hws. unfold step. cbn [fst snd].
  destruct (handle_emitted env (EngineProgress r p)
              (set_clock now (run env evs))) as (es & Hes & ->).
  rewrite (received_emitted ws (set_clock now (run env evs)) _ _ Hes).
  rewrite (sent_to_fanout _ r t); try done.
  apply (run_subscribers_ok env evs).
Qed.

(** X12: a progress update is stored and pushed.  After any run, when the
    engine reports a snapshot for a task, the session object holds that
    snapshot with status in-progress and [updatedAt] set to the time of
    the call, its results and error are untouched, and every socket
    subscribed to the session's id is sent exactly one 'progress' event
    carrying the snapshot, after everything it was sent before. *)
Theorem progress_stored_and_pushed env evs now r t p :
  tasks (run env evs) !! r = Some t →
  let st := run env evs in
  let st' := step env st (now, EngineProgress r p) in
  (∃ s, session_of st' r = Some s ∧
        status s = in_progress ∧ progress s = Some p ∧ updatedAt s = now ∧
        results s = results (session t) ∧ error s = error (session t)) ∧
  (∀ ws, sockets st !! ws = Some (Some (sessionId t)) →
         received ws st' = received ws st ++ [progress_update (Some p)]).
Proof.
  intros Ht st st'. subst st st'. split.
  - unfold step. cbn [handle fst snd]. rewrite updateProgress_output.
    unfold session_of. rewrite session_onProgress_tasks. simpl.
    rewrite list_lookup_alter_eq, Ht. simpl. eexists. split; [done|]. done.
  - intros ws Hws. by apply (progress_pushed env evs now r t).
Qed.

Lemma progress_stored_and_pushed_witness :
  received 0 (step env0 (run env0 pending_run) (3%Z, EngineProgress 0 progress0))
  = received 0 (run env0 pending_run) ++ [progress_update (Some progress0)].
Proof.
  edestruct (progress_stored_and_pushed env0 pending_run 3%Z 0) as [_ Hpush].
  - vm_compute. reflexivity.
  - apply Hpush. vm_compute. reflexivity.
Defined.

(** X13: completion.  After any run, when the report arrives for a task
    whose research has resolved, the session object goes to status
    completed with results made of the learnings and visited URLs the
    research resolved with and the report; it keeps its last snapshot and
    has no error; and every socket subscribed to the session's id is sent
    exactly one 'completed' event carrying those results. *)
Theorem completion_stored_and_pushed env evs now r t out report :
  tasks (run env evs) !! r = Some t →
  phase t = reporting out →
  let st := run env evs in
  let st' := step env st (now, ReportResolved r report) in
  let res := {| learnings := out_learnings out;
                visitedUrls := out_visitedUrls out;
                report := Some report |} in
  (∃ s, session_of st' r = Some s ∧
        status s = completed ∧ results s = Some res ∧ error s = None ∧
        progress s = progress (session t) ∧ updatedAt s = now) ∧
  (∀ ws, sockets st !! ws = Some (Some (sessionId t)) →
         received ws st' = received ws st ++ [completed_update res]).
Proof.
  intros Ht Hphase st st' res. subst st st' res. unfold step.
  cbn [handle fst snd].
  pose proof (run_task_ok_lookup env evs r t Ht) as (_ & _ & H).
  rewrite Hphase in H. destruct H as (_ & Herr & _).
  split.
  - unfold session_of. rewrite report_resolved_tasks. unfold phase_of. simpl.
    rewrite Ht. simpl. rewrite Hphase.
    rewrite list_lookup_alter_eq, Ht. simpl. eexists. split; [done|]. done.
  - intros ws Hws.
    destruct (handle_emitted env (ReportResolved r report)
                (set_clock now (run env evs))) as (es & Hes & Hshape).
    cbn [handle] in Hes.
    rewrite (received_emitted ws (set_clock now (run env evs)) _ _ Hes).
    assert (es = fanout (set_clock now (run env evs)) r
                   (completed_update {| learnings := out_learnings out;
                                        visitedUrls := out_visitedUrls out;
                                        report := Some report |})) as ->.
    { unfold report_resolved in Hes. simpl in Hes. rewrite Ht, Hphase in Hes.
      rewrite broadcast_effects in Hes. simpl in Hes.
      apply app_inv_head in Hes. subst es. unfold fanout. simpl.
      by rewrite Ht. }
    rewrite (sent_to_fanout _ r t); try done.
    apply (run_subscribers_ok env evs).
Qed.

Lemma completion_stored_and_pushed_witness :
  received 0 (step env0 (run env0 reporting_run)
                (5%Z, ReportResolved 0 "the report"))
  = received 0 (run env0 reporting_run) ++
    [completed_update {| learnings := ["finding"];
                         visitedUrls := ["http://a"];
                         report := Some "the report" |}].
Proof.
  edestruct completion_stored_and_pushed
    with (env := env0) (evs := reporting_run) (now := 5%Z) (r := 0)
         (out := out0) (report := "the report")
    as [_ Hpush].
  - vm_compute. reflexivity.
  - reflexivity.
  - apply Hpush. vm_compute. reflexivity.
Defined.

(** ** The calls of the engine and of the report writer (X14, X15) *)

Lemma fanout_no_call st r u e : e ∈ fanout st r u → is_call e = false.
Proof.
  unfold fanout. destruct (tasks st !! r); [|by intros ?%elem_of_nil].
  by intros (w & -> & _)%list_elem_of_fmap.
Qed.

(** A callback appends the call of [deepResearch] with a new session
    object, the call of [writeFinalReport] when the research of a task
    resolves, and otherwise no call; only the first adds a session
    object. *)
Lemma handle_calls env ev st :
  ∃ es, effects (handle env ev st) = effects st ++ es ∧
  ((∃ k body uuid sync v rest,
      ev = PostResearch k body uuid sync ∧
      startResearchSchema_parse body = Some v ∧
      tasks (handle env ev st)
      = tasks st ++ [synced sync (clock st) (new_task v uuid (clock st))] ∧
      es = call_deepResearch (length (tasks st)) (research_params v) :: rest ∧
      ∀ e, e ∈ rest → is_call e = false)
   ∨ (∃ r out t,
        ev = ResearchResolved r out ∧ tasks st !! r = Some t ∧
        length (tasks (handle env ev st)) = length (tasks st) ∧
        es = [call_writeFinalReport r
                {| rp_prompt := enhancedQuery t;
                   rp_learnings := out_learnings out;
                   rp_visitedUrls := out_visitedUrls out;
                   rp_model := model t |}])
   ∨ ((∀ e, e ∈ es → is_call e = false) ∧
      length (tasks (handle env ev st)) = length (tasks st))).
Proof.
  assert (∀ es : list effect, Forall (λ e, is_call e = false) es →
                              ∀ e, e ∈ es → is_call e = false) as Hall.
  { intros es H e He. by eapply Forall_forall in H. }
  destruct ev as [apiKey sid|ws|apiKey body uuid sync|apiKey sid|r p
                 |r out|r message|r report|r message].
  - cbn [handle]. unfold ws_connection.
    repeat case_match; simpl; (eexists; split; [done|]); right; right;
      (split; [apply Hall; by repeat constructor|done]).
  - cbn [handle]. exists []. rewrite app_nil_r.
    split; [unfold ws_on_close; by repeat case_match|]. right. right.
    split; [by intros e ?%elem_of_nil|]. by rewrite ws_on_close_tasks.
  - cbn [handle]. destruct (authenticate env apiKey) as [response|] eqn:Hauth.
    + eexists. split; [done|]. right. right. split; [|done].
      unfold authenticate in Hauth. apply Hall.
      repeat case_match; simplify_eq; by repeat constructor.
    + destruct (startResearchSchema_parse body) as [v|] eqn:Hparse.
      * destruct (post_research_accepted_state env body uuid sync st v Hparse)
          as (Htasks & _ & _ & _ & Heffects).
        eexists. split; [exact Heffects|]. left.
        eexists _, _, _, _, _, _. split; [done|]. split; [done|].
        split; [done|]. split; [done|].
        intros e [He|He]%elem_of_app.
        -- apply elem_of_sync_sends in He as (p & w & -> & _). done.
        -- by apply list_elem_of_singleton in He as ->.
      * rewrite post_research_rejected by done. unfold errorHandler.
        eexists. split; [done|]. right. right. split; [|done].
        apply Hall. by repeat constructor.
  - cbn [handle]. destruct (authenticate env apiKey) as [response|] eqn:Hauth.
    + eexists. split; [done|]. right. right. split; [|done].
      unfold authenticate in Hauth. apply Hall.
      repeat case_match; simplify_eq; by repeat constructor.
    + unfold get_route, get_research. repeat case_match; simpl;
        (eexists; split; [done|]); right; right;
        (split; [apply Hall; by repeat constructor|done]).
  - destruct (handle_emitted env (EngineProgress r p) st) as (es & Hes & ->).
    eexists. split; [exact Hes|]. right. right.
    split; [intros e; apply fanout_no_call|].
    by apply handle_tasks_length_eq.
  - cbn [handle]. unfold research_resolved.
    destruct (tasks st !! r) as [t|] eqn:Ht.
    2:{ exists []. rewrite app_nil_r. split; [done|]. right. right.
        split; [by intros e ?%elem_of_nil|done]. }
    destruct (phase t) eqn:Hphase;
      try (exists []; rewrite app_nil_r; split; [done|]; right; right;
           split; [by intros e ?%elem_of_nil|done]).
    simpl. eexists. split; [done|]. right. left.
    exists r, out, t. split; [done|]. split; [done|].
    split; [by rewrite length_alter|done].
  - destruct (handle_emitted env (ResearchRejected r message) st)
      as (es & Hes & Hshape).
    eexists. split; [exact Hes|]. right. right.
    split; [|by apply handle_tasks_length_eq].
    destruct Hshape as [->| ->];
      [by intros e ?%elem_of_nil|intros e; apply fanout_no_call].
  - destruct (handle_emitted env (ReportResolved r report) st)
      as (es & Hes & Hshape).
    eexists. split; [exact Hes|]. right. right.
    split; [|by apply handle_tasks_length_eq].
    destruct Hshape as [->|(out & _ & ->)];
      [by intros e ?%elem_of_nil|intros e; apply fanout_no_call].
  - destruct (handle_emitted env (ReportRejected r message) st)
      as (es & Hes & Hshape).
    eexists. split; [exact Hes|]. right. right.
    split; [|by apply handle_tasks_length_eq].
    destruct Hshape as [->| ->];
      [by intros e ?%elem_of_nil|intros e; apply fanout_no_call].
Qed.

Lemma calls_ok_handle env ev st : calls_ok st → calls_ok (handle env ev st).
Proof.
  intros (Hres & Hrep & Hall).
  destruct (handle_calls env ev st) as (es & Hes & Hshape).
  assert (∀ r t1, tasks st !! r = Some t1 →
          ∃ t2, tasks (handle env ev st) !! r = Some t2 ∧
                enhancedQuery t2 = enhancedQuery t1 ∧ model t2 = model t1 ∧
                breadth (session t2) = breadth (session t1) ∧
                depth (session t2) = depth (session t1)) as Hkeep.
  { intros r t1 Ht1.
    destruct (keeps_handle env ev st r t1 Ht1) as (t2 & Ht2 & Hfix & _).
    exists t2. split; [done|]. unfold fixed_part in Hfix.
    by injection Hfix as _ _ -> -> _ _ _ _ -> ->. }
  split; [|split].
  - intros r p Hin. rewrite Hes in Hin. apply elem_of_app in Hin as [Hin|Hin].
    + destruct (Hres r p Hin) as (t1 & Ht1 & Hq & Hm & Hb & Hd).
      destruct (Hkeep r t1 Ht1) as (t2 & Ht2 & Hq' & Hm' & Hb' & Hd').
      exists t2. split; [done|]. repeat split; congruence.
    + destruct Hshape
        as [(k & body & uuid & sync & v & rest & -> & Hparse & Htasks & -> & Hrest)
           |[(r' & out & t & -> & Ht & _ & ->)|[Hno _]]].
      * apply elem_of_cons in Hin as [[= -> ->]|Hin].
        -- rewrite Htasks. eexists. split; [by apply list_lookup_middle|].
           by destruct (synced_fields sync (clock st)
                          (new_task v uuid (clock st)))
             as (_ & -> & -> & _ & _ & _ & -> & -> & _).
        -- by apply Hrest in Hin.
      * apply list_elem_of_singleton in Hin. done.
      * by apply Hno in Hin.
  - intros r rp Hin. rewrite Hes in Hin. apply elem_of_app in Hin as [Hin|Hin].
    + destruct (Hrep r rp Hin) as (t1 & Ht1 & Hq & Hm).
      destruct (Hkeep r t1 Ht1) as (t2 & Ht2 & Hq' & Hm' & _).
      exists t2. split; [done|]. split; congruence.
    + destruct Hshape
        as [(k & body & uuid & sync & v & rest & -> & Hparse & Htasks & -> & Hrest)
           |[(r' & out & t & -> & Ht & _ & ->)|[Hno _]]].
      * apply elem_of_cons in Hin as [?|Hin]; [done|].
        by apply Hrest in Hin.
      * apply list_elem_of_singleton in Hin. injection Hin as -> ->.
        destruct (Hkeep r' t Ht) as (t2 & Ht2 & Hq' & Hm' & _).
        exists t2. split; [done|]. simpl. split; congruence.
      * by apply Hno in Hin.
  - intros r t2 Ht2. rewrite Hes.
    apply task_origin in Ht2
      as [(t1 & Ht1 & _)
         |(k & body & uuid & sync & v & -> & Hauth & Hparse & -> & _)].
    + destruct (Hall r t1 Ht1) as (p & Hp). exists p.
      apply elem_of_app. by left.
    + destruct Hshape
        as [(k' & body' & uuid' & sync' & v' & rest & [= <- <- <- <-]
             & Hparse' & Htasks & -> & _)
           |[(r' & out & t & [=] & _)|[_ Hlen]]].
      * eexists. apply elem_of_app. right. by left.
      * cbn [handle] in Hlen. rewrite Hauth in Hlen.
        destruct (post_research_accepted_state env body uuid sync st v Hparse)
          as (Htasks & _).
        rewrite Htasks, length_app in Hlen. simpl in Hlen. lia.
Qed.

Lemma run_calls_ok env evs : calls_ok (run env evs).
Proof.
  apply (run_invariant env calls_ok).
  - split; [|split].
    + by intros r p ?%elem_of_nil.
    + by intros r rp ?%elem_of_nil.
    + intros r t H. simpl in H. by rewrite lookup_nil in H.
  - intros st [now ev] H.
    by apply (calls_ok_handle env ev (set_clock now st)).
Qed.

(** X14: the report is written from what the research was started with.
    After every run, every call of [writeFinalReport] was made for a task
    for which [deepResearch] had been called, its prompt is the query of
    that call and its model is the model of that call; and every call of
    [deepResearch] carries the breadth and depth of its session object. *)
Theorem report_uses_research_prompt env evs :
  (∀ r rp, call_writeFinalReport r rp ∈ effects (run env evs) →
     ∃ p, call_deepResearch r p ∈ effects (run env evs) ∧
          rp_prompt rp = dr_query p ∧ rp_model rp = dr_model p) ∧
  (∀ r p, call_deepResearch r p ∈ effects (run env evs) →
     ∃ s, session_of (run env evs) r = Some s ∧
          dr_breadth p = breadth s ∧ dr_depth p = depth s).
Proof.
  destruct (run_calls_ok env evs) as (Hres & Hrep & Hall). split.
  - intros r rp Hin. destruct (Hrep r rp Hin) as (t & Ht & Hq & Hm).
    destruct (Hall r t Ht) as (p & Hp). exists p. split; [done|].
    destruct (Hres r p Hp) as (t' & Ht' & Hq' & Hm' & _).
    assert (t' = t) as -> by congruence. split; congruence.
  - intros r p Hin. destruct (Hres r p Hin) as (t & Ht & _ & _ & Hb & Hd).
    exists (session t). unfold session_of. by rewrite Ht.
Qed.

Lemma omap_no_call {B} (f : effect → option B) (es : list effect) :
  (∀ e, is_call e = false → f e = None) →
  (∀ e, e ∈ es → is_call e = false) → omap f es = [].
Proof.
  intros Hf. induction es as [|e es IH]; [done|]. intros H. simpl.
  rewrite (Hf e) by (apply H; by left). apply IH. intros e' He'.
  apply H. by right.
Qed.

(** X15: one research per session object.  After every run the calls of
    [deepResearch] were made, in this order, for the session objects
    0, 1, 2, ... in the order of their creation, one call each: a session
    exists exactly when a research was started for it, and nothing else
    starts a research. *)
Theorem one_research_per_session env evs :
  research_call_tasks (run env evs) = seq 0 (length (tasks (run env evs))).
Proof.
  apply (run_invariant env
           (λ st, research_call_tasks st = seq 0 (length (tasks st)))).
  - done.
  - intros st [now ev] IH. unfold step. cbn [fst snd].
    change (research_call_tasks (set_clock now st)
            = seq 0 (length (tasks (set_clock now st)))) in IH.
    destruct (handle_calls env ev (set_clock now st)) as (es & Hes & Hshape).
    unfold research_call_tasks in *. rewrite Hes, omap_app, IH.
    destruct Hshape
      as [(k & body & uuid & sync & v & rest & -> & Hparse & Htasks & -> & Hrest)
         |[(r' & out & t & -> & Ht & Hlen & ->)|[Hno Hlen]]].
    + rewrite Htasks, length_app. simpl.
      rewrite omap_no_call; [by rewrite seq_app| |done]. by intros [].
    + rewrite Hlen. simpl. by rewrite app_nil_r.
    + rewrite Hlen, omap_no_call; [by rewrite app_nil_r| |done].
      by intros [].
Qed.

(** ** What is never changed, removed or sent (X16, X17, X18) *)

(** X16: a session object is only ever added to.  Between any two points
    of a run its id, query, breadth, depth, the two kinds of notes and
    [createdAt] stay what they were at creation, and a snapshot, results
    or an error message that is there is never cleared: the last snapshot
    survives completion and failure. *)
Theorem session_fields_kept env evs1 evs2 r s1 :
  session_of (run env evs1) r = Some s1 →
  ∃ s2, session_of (run env (evs1 ++ evs2)) r = Some s2 ∧
        (id s2, query s2, breadth s2, depth s2,
         additionalNotes s2, mainPromptNotes s2, createdAt s2)
        = (id s1, query s1, breadth s1, depth s1,
           additionalNotes s1, mainPromptNotes s1, createdAt s1) ∧
        (is_Some (progress s1) → is_Some (progress s2)) ∧
        (is_Some (results s1) → is_Some (results s2)) ∧
        (is_Some (error s1) → is_Some (error s2)).
Proof.
  unfold session_of. intros Hs1.
  destruct (tasks (run env evs1) !! r) as [t1|] eqn:Ht1; [|done].
  injection Hs1 as <-.
  destruct (keeps_from env (run env evs1) evs2 r t1 Ht1)
    as (t2 & Ht2 & Hfix & Hp & Hr & He).
  rewrite run_app, Ht2. simpl. eexists. split; [done|].
  unfold fixed_part in Hfix. injection Hfix as -> -> -> -> -> -> -> _ _ _.
  done.
Qed.

Lemma session_fields_kept_witness :
  ∃ s2, session_of (run env0 (started_run ++ finishing)) 0 = Some s2 ∧
        is_Some (progress s2).
Proof.
  edestruct (session_fields_kept env0 started_run finishing 0)
    as (s2 & Hs2 & _ & Hp & _).
  - vm_compute. reflexivity.
  - exists s2. split; [exact Hs2|]. apply Hp. by eexists.
Defined.

Lemma sessions_kept_from env st evs sid r :
  sessions st !! sid = Some r →
  is_Some (sessions (foldl (step env) st evs) !! sid) ∧
  ((∀ now k b sync, (now, PostResearch k b sid sync) ∉ evs) →
   sessions (foldl (step env) st evs) !! sid = Some r).
Proof.
  revert st r. induction evs as [|[now ev] evs IH]; intros st r Hr; simpl.
  { split; [by eexists|done]. }
  assert (∃ r', sessions (step env st (now, ev)) !! sid = Some r' ∧
                ((∀ k b sync, ev ≠ PostResearch k b sid sync) → r' = r))
    as (r' & Hr' & Hsame).
  { unfold step. cbn [fst snd].
    assert ((∃ k b u sync, ev = PostResearch k b u sync) ∨
            ¬ (∃ k b u sync, ev = PostResearch k b u sync))
      as [(k & b & u & sync & ->)|Hnp]
      by (destruct ev; eauto 10; right; by intros (? & ? & ? & ? & ?)).
    - cbn [handle]. destruct (authenticate env k); [by eauto|].
      destruct (startResearchSchema_parse b) as [v|] eqn:Hparse;
        [|rewrite post_research_rejected by done; by eauto].
      destruct (post_research_accepted_state env b u sync
                  (set_clock now st) v Hparse) as (_ & -> & _).
      simpl. rewrite lookup_insert. case_decide as Heq.
      + subst u. eexists. split; [done|]. intros H. by destruct (H k b sync).
      + eauto.
    - rewrite handle_sessions by (intros k b u sync ->; apply Hnp; eauto).
      eauto. }
  destruct (IH _ r' Hr') as (Hsome & Hkeep).
  split; [done|].
  intros Hno. rewrite Hkeep.
  - f_equal. apply Hsame. intros k b sync ->. apply (Hno now k b sync). by left.
  - intros now' k b sync Hin. apply (Hno now' k b sync). by right.
Qed.

(** X17: sessions are never removed.  An id that is registered stays
    registered for the rest of the run, and as long as no later request
    is given the same id by [uuidv4] the id keeps denoting the same
    session object. *)
Theorem sessions_never_removed env evs1 evs2 sid r :
  sessions (run env evs1) !! sid = Some r →
  is_Some (sessions (run env (evs1 ++ evs2)) !! sid) ∧
  ((∀ now k b sync, (now, PostResearch k b sid sync) ∉ evs2) →
   sessions (run env (evs1 ++ evs2)) !! sid = Some r).
Proof. intros Hr. rewrite run_app. by apply sessions_kept_from. Qed.

Lemma sessions_never_removed_witness :
  sessions (run env0 (pending_run ++
                      [(3%Z, EngineProgress 0 progress0);
                       (4%Z, ResearchRejected 0 "boom");
                       (5%Z, WsClose 0)])) !! "s1" = Some 0.
Proof.
  eapply (sessions_never_removed env0 pending_run).
  - vm_compute. reflexivity.
  - intros now k b sync Hin.
    repeat (apply elem_of_cons in Hin as [Hin|Hin]; [discriminate|]).
    by apply elem_of_nil in Hin.
Defined.

Lemma initialUpdate_not_null s : initialUpdate s ≠ progress_update None.
Proof. unfold initialUpdate. by repeat case_match. Qed.

(** No callback the server runs sends a 'progress' event whose data is
    [null], whatever the state. *)
Lemma handle_no_null env ev st w :
  ws_send w (progress_update None) ∉ emitted st (handle env ev st).
Proof.
  destruct (handle_emitted env ev st) as (es & Hes & Hshape).
  rewrite (emitted_app _ _ _ Hes). intros Hin.
  assert (∀ r u, u ≠ progress_update None →
                 ws_send w (progress_update None) ∉ fanout st r u) as Hfan.
  { intros r u Hu Hin'. unfold fanout in Hin'.
    destruct (tasks st !! r); [|by apply elem_of_nil in Hin'].
    apply list_elem_of_fmap in Hin' as (w' & [= _ Heq] & _). by destruct Hu. }
  destruct ev as [apiKey sid|ws'|apiKey body uuid sync|apiKey sid|r p
                 |r out|r message|r report|r message].
  - destruct Hshape as [(s & u & _ & _ & _ & ->)|Hno]; [|by apply Hno in Hin].
    apply list_elem_of_singleton in Hin. injection Hin as _ Hin.
    symmetry in Hin. by apply initialUpdate_not_null in Hin.
  - subst es. by apply elem_of_nil in Hin.
  - apply Hshape in Hin.
    by apply elem_of_sync_sends in Hin as (p & w' & [=] & _).
  - by apply Hshape in Hin.
  - subst es. by apply Hfan in Hin.
  - by apply Hshape in Hin.
  - destruct Hshape as [->| ->];
      [by apply elem_of_nil in Hin|by apply Hfan in Hin].
  - destruct Hshape as [->|(out & _ & ->)];
      [by apply elem_of_nil in Hin|by apply Hfan in Hin].
  - destruct Hshape as [->| ->];
      [by apply elem_of_nil in Hin|by apply Hfan in Hin].
Qed.

(** After any run the effect log holds no 'progress' event whose data is
    [null]. *)
Lemma run_no_null env evs w :
  ws_send w (progress_update None) ∉ effects (run env evs).
Proof.
  revert w. apply (run_invariant env
    (λ st, ∀ w, ws_send w (progress_update None) ∉ effects st)).
  - intros w Hin. by apply elem_of_nil in Hin.
  - intros st [now ev] IH w. unfold step. cbn [fst snd].
    destruct (handle_emitted env ev (set_clock now st)) as (es & Hes & _).
    pose proof (handle_no_null env ev (set_clock now st) w) as Hno.
    rewrite (emitted_app _ _ _ Hes) in Hno. rewrite Hes.
    intros [Hin|Hin]%elem_of_app; [by apply (IH w)|by apply Hno].
Qed.

(** X18: a 'progress' event whose data is [null] has one possible source
    only.  Whatever the state of the server, no callback the server runs
    sends such an event: not the replay on attach, not [onProgress], not
    the promise continuations, not the answers to requests.  The
    [onOutput] callback of a task's output manager, reached through its
    [log] method alone, sends one only if the session of the task has no
    snapshot yet. *)
Theorem null_snapshot_only_from_output env st w :
  (∀ ev, ws_send w (progress_update None) ∉ emitted st (handle env ev st)) ∧
  (∀ r args,
     ws_send w (progress_update None) ∈ emitted st (log (output r) args st) →
     ∃ t, tasks st !! r = Some t ∧ progress (session t) = None).
Proof.
  split; [intros ev; apply handle_no_null|].
  intros r args. rewrite log_output. unfold session_onOutput.
  destruct (tasks st !! r) as [t|] eqn:Ht.
  - rewrite (emitted_app _ _ _ (broadcast_effects _ _ _)).
    intros Hin. apply list_elem_of_fmap in Hin as (w' & [= _ Heq] & _).
    eauto.
  - unfold emitted. rewrite drop_all. by intros ?%elem_of_nil.
Qed.

(** Were [log] called for the session of [pending_run], which has a
    subscriber and no snapshot yet. *)
Lemma null_snapshot_only_from_output_witness :
  ∃ t, tasks (run env0 pending_run) !! 0 = Some t ∧
       progress (session t) = None.
Proof.
  apply (proj2 (null_snapshot_only_from_output env0 (run env0 pending_run) 0)
           0 ["Researching"]).
  vm_compute. left.
Defined.

(** ** Progress events carry a snapshot (C10) *)

(** C10: every 'progress' event that the server delivers to a socket, in
    any run, carries a snapshot: its data is never [null].  The replay on
    attach sends the stored snapshot or the zeroed one, [onProgress] sends
    the snapshot it was called with, and the [onOutput] callback, which
    reads [session.progress] as it is, never runs, since nothing calls
    the [log] method of a session's output manager. *)
Theorem progress_events_carry_snapshot env evs ws u :
  progress_update u ∈ received ws (run env evs) → is_Some u.
Proof.
  intros Hin. unfold received in Hin.
  apply list_elem_of_omap in Hin as (e & He & Heq).
  destruct e as [w u'| | | | | |]; try discriminate.
  destruct (decide (w = ws)) as [->|]; [|discriminate].
  injection Heq as ->.
  destruct u as [p|]; [by eexists|].
  by apply run_no_null in He.
Qed.

(** The subscriber of [started_run] was sent the snapshot the engine
    reported. *)
Lemma progress_events_carry_snapshot_witness :
  progress_update (Some progress0) ∈ received 0 (run env0 started_run) ∧
  is_Some (Some progress0).
Proof.
  assert (progress_update (Some progress0)
          ∈ received 0 (run env0 started_run)) as Hin.
  { vm_compute. right. left. }
  split; [exact Hin|].
  exact (progress_events_carry_snapshot env0 started_run 0 _ Hin).
Defined.

(** ** Failure of the research, and attaching before an update (X19, X20) *)

(** X19: failure of the research.  After any run, when [deepResearch]
    rejects for a task whose research is pending, the session object goes
    to status error with the message of the rejection, it has no results,
    it keeps its last snapshot, [writeFinalReport] is not called, and
    every socket subscribed to the session's id is sent exactly one
    'error' event carrying the message. *)
Theorem research_failure_stored_and_pushed env evs now r t message :
  tasks (run env evs) !! r = Some t →
  phase t = researching →
  let st := run env evs in
  let st' := step env st (now, ResearchRejected r message) in
  (∃ s, session_of st' r = Some s ∧
        status s = error_status ∧ error s = Some message ∧
        results s = None ∧ progress s = progress (session t) ∧
        updatedAt s = now) ∧
  (∀ e, e ∈ emitted st st' → is_call e = false) ∧
  (∀ ws, sockets st !! ws = Some (Some (sessionId t)) →
         received ws st' = received ws st ++ [error_update message]).
Proof.
  intros Ht Hphase st st'. subst st st'. unfold step. cbn [handle fst snd].
  pose proof (run_task_ok_lookup env evs r t Ht) as (_ & _ & H).
  rewrite Hphase in H. destruct H as (Hres & _ & _).
  unfold phase_of. simpl. rewrite Ht. simpl. rewrite Hphase. simpl.
  assert (effects (research_catch r message (set_clock now (run env evs)))
          = effects (set_clock now (run env evs)) ++
            fanout (set_clock now (run env evs)) r (error_update message))
    as Hes.
  { unfold research_catch, fanout. simpl. rewrite Ht.
    by rewrite broadcast_effects. }
  split; [|split].
  - unfold session_of. rewrite research_catch_tasks. simpl.
    rewrite list_lookup_alter_eq, Ht. simpl. eexists. split; [done|]. done.
  - intros e. rewrite (emitted_app (run env evs) _ _ Hes).
    apply fanout_no_call.
  - intros ws Hws.
    rewrite (received_emitted ws (set_clock now (run env evs)) _ _ Hes).
    rewrite (sent_to_fanout _ r t); try done.
    apply (run_subscribers_ok env evs).
Qed.

Lemma research_failure_stored_and_pushed_witness :
  received 0 (step env0 (run env0 pending_run) (3%Z, ResearchRejected 0 "boom"))
  = received 0 (run env0 pending_run) ++ [error_update "boom"].
Proof.
  edestruct research_failure_stored_and_pushed
    with (env := env0) (evs := pending_run) (now := 3%Z) (r := 0)
         (message := "boom")
    as (_ & _ & Hpush).
  - vm_compute. reflexivity.
  - reflexivity.
  - apply Hpush. vm_compute. reflexivity.
Defined.

(** X20: attaching subscribes.  After any run, a socket that attaches
    with a valid key to a registered session is sent the replay and is
    from then on a subscriber of that session: the next progress update
    of the session's task reaches it, right after the replay. *)
Theorem attach_then_progress env evs now1 now2 apiKey sid r p :
  authenticateWs env apiKey = true →
  sid ≠ "" →
  sessions (run env evs) !! sid = Some r →
  let st := run env evs in
  let ws := length (sockets st) in
  let st1 := step env st (now1, WsConnection apiKey (Some sid)) in
  ∃ s, session_of st r = Some s ∧
       received ws (step env st1 (now2, EngineProgress r p))
       = received ws st ++ [initialUpdate s; progress_update (Some p)].
Proof.
  intros Hauth Hsid Hr st ws st1. subst st ws st1.
  destruct (run_registry_linked env evs sid r Hr) as (t & Ht & Hsess & _).
  exists (session t). unfold session_of. rewrite Ht. split; [done|].
  rewrite <- run_snoc.
  set (evs' := evs ++ [(now1, WsConnection apiKey (Some sid))]).
  assert (sessions_get (set_clock now1 (run env evs)) sid = Some (session t))
    as Hget.
  { unfold sessions_get. simpl. rewrite Hr. simpl. by rewrite Ht. }
  assert (effects (run env evs')
          = effects (run env evs) ++
            [ws_send (length (sockets (run env evs))) (initialUpdate (session t))])
    as Heff.
  { unfold evs'. rewrite run_snoc. unfold step. cbn [handle fst snd].
    by rewrite (ws_connection_replay env apiKey sid _ _ Hauth Hsid Hget). }
  assert (tasks (run env evs') !! r = Some t) as Ht'.
  { unfold evs'. rewrite run_snoc. unfold step. cbn [handle fst snd].
    by rewrite ws_connection_tasks. }
  assert (sockets (run env evs') !! length (sockets (run env evs))
          = Some (Some (sessionId t))) as Hsock.
  { unfold evs'. rewrite run_snoc. unfold step. cbn [handle fst snd].
    unfold ws_connection. rewrite Hauth. simpl.
    rewrite (bool_decide_eq_true_2 _ Hsid). simpl.
    unfold sessions_has. simpl. rewrite Hr.
    rewrite bool_decide_eq_true_2 by (by eexists). simpl.
    unfold sessions_get in *. simpl in *. rewrite Hget. simpl.
    rewrite list_lookup_insert_eq by (rewrite length_app; simpl; lia).
    by rewrite Hsess. }
  rewrite (progress_pushed env evs' now2 r t p _ Ht' Hsock).
  rewrite (received_emitted _ (run env evs) _ _ Heff).
  rewrite <- app_assoc. f_equal. unfold sent_to. simpl.
  by rewrite decide_True.
Qed.

Lemma attach_then_progress_witness :
  ∃ s, session_of (run env0 [post0]) 0 = Some s ∧
       received 0 (step env0 (step env0 (run env0 [post0])
                                (2%Z, WsConnection key0 (Some "s1")))
                     (3%Z, EngineProgress 0 progress0))
       = received 0 (run env0 [post0]) ++
         [initialUpdate s; progress_update (Some progress0)].
Proof.
  apply (attach_then_progress env0 [post0] 2%Z 3%Z key0 "s1" 0 progress0).
  - reflexivity.
  - discriminate.
  - vm_compute. reflexivity.
Defined.
